(** * TelegramQt: client data store, DC configuration and server connection

    A shallow embedding of
      - [src/TelegramQt/DcConfiguration.hpp]   (ConnectionSpec, qHash),
      - [src/TelegramQt/DataStorage.cpp]       (DataStorage, DataInternalApi),
      - [src/server/RemoteClientConnection.cpp] (processAuthKey, sendKeyError),
      - [src/server/RpcOperations/UsersOperationFactory.cpp] (runGetFullUser),
    followed by the properties the specification states about them.

    Conventions.  A [quint32] / [quint64] is a [Z] with the wrap-around
    written out where the code does arithmetic ([wrap32], [wrap64]).  A
    [QHash<K, T*>] whose pointees are owned by the hash (every stored pointer
    comes from a [new] at insertion and is never shared) is a [gmap Z T];
    [hash.value(k)] returning [nullptr] is [None]; an assignment through the
    stored pointer is [alter].  Log output ([qDebug], [qWarning], [qCInfo])
    is returned as a list of [LogLine]s next to the result. *)

From Stdlib Require Import ZArith Lia Ascii String.
From stdpp Require Import base gmap list strings.

Local Open Scope Z_scope.

(** ** Machine integers *)

Definition wrap32 (z : Z) : Z := z mod 2 ^ 32.
Definition wrap64 (z : Z) : Z := z mod 2 ^ 64.

Definition is_u32 (z : Z) : Prop := 0 <= z < 2 ^ 32.
Definition is_u64 (z : Z) : Prop := 0 <= z < 2 ^ 64.

(** A [QByteArray] is the list of its bytes, each a [Z] in [0, 256). *)
Definition QByteArray := list Z.

Definition isEmpty (b : QByteArray) : bool :=
  match b with [] => true | _ :: _ => false end.

(** ** DcConfiguration.hpp *)

Module DcConfiguration.

  (** [ConnectionSpec::RequestFlag] *)
Definition RequestFlag_None : Z := 0.
Definition RequestFlag_Ipv4Only : Z := Z.shiftl 1 1.
Definition RequestFlag_Ipv6Only : Z := Z.shiftl 1 2.
Definition RequestFlag_MediaOnly : Z := Z.shiftl 1 3.

  (** [struct ConnectionSpec]: [dcId] is a [quint32]; [flags] is a
      [QFlags<RequestFlag>], kept as the integer of its bits. *)
Record ConnectionSpec := mkConnectionSpec { dcId : Z; flags : Z }.

  (** [ConnectionSpec::operator==] *)
Definition ConnectionSpec_eq (self spec : ConnectionSpec) : bool :=
    (dcId spec =? dcId self) && (flags spec =? flags self).

Section Hash.
    (** Qt's [::qHash(uint key, uint seed)], which is not part of this
        repository. *)
Variable qHash_uint : Z -> Z -> Z.

    (** [inline uint qHash(const ConnectionSpec &key, uint seed)] *)
Definition qHash (key : ConnectionSpec) (seed : Z) : Z :=
      qHash_uint
        (wrap32 (Z.lor (dcId key) (wrap32 (Z.shiftl (wrap32 (flags key)) 20))))
        seed.
End Hash.

(** [Telegram::DcOption], declared in [TelegramNamespace.hpp]. *)
Record DcOption := mkDcOption {
  DcOption_flags : Z;
  DcOption_id : Z;
  DcOption_address : string;
  DcOption_port : Z
}.

(** [struct DcConfiguration] *)
Record t := mk { dcOptions : list DcOption }.

Definition isValid (c : t) : bool :=
  negb (match dcOptions c with [] => true | _ :: _ => false end).

End DcConfiguration.

(** ** Public and TL data types used by the client data store

    The declarations live in headers that are not part of the sources at
    hand ([TelegramNamespace.hpp], [TLTypes.hpp], [TLValues.hpp]); the records
    below carry the members the code reads and writes, under their names. *)

(** [TLValue]: the constructor tag of a TL object. *)
Module TLValue.
Inductive t :=
  | PeerUser | PeerChat | PeerChannel
  | InputPeerEmpty | InputPeerSelf | InputPeerChat | InputPeerUser
  | InputPeerChannel
  | InputUserEmpty | InputUserSelf | InputUser
  | UserEmpty | User
  | ChatEmpty | Chat | Channel
  | MessageEmpty | Message | MessageService
  | MessagesDialogs | MessagesDialogsSlice
  | UserFull
  | UsersGetFullUser | UsersGetUsers.

#[global] Instance eq_dec : EqDecision t.
Proof. solve_decision. Defined.
End TLValue.

(** [Telegram::Peer] *)
Module Peer.
  (** [Peer::Type]; [Unknown] stands for any other value of the enumeration's
      underlying integer, which the [default:] label of a [switch] receives. *)
Inductive Type_ := User | Chat | Channel | Unknown.

#[global] Instance Type_eq_dec : EqDecision Type_.
Proof. solve_decision. Defined.

Record t := mk { type : Type_; id : Z }.

  (** [Peer::operator==] compares both members. *)
#[global] Instance eq_dec : EqDecision t.
Proof. solve_decision. Defined.

  (** [Peer::fromUserId] *)
Definition fromUserId (userId : Z) : t := mk User userId.
End Peer.

(** Log output: the severity and the items streamed into the line.
    [LPointer] is a streamed pointer; its address is not modelled. *)
Inductive LogLevel := QtDebugMsg | QtInfoMsg | QtWarningMsg.

Inductive LogItem :=
| LStr (s : string)
| LNum (n : Z)
| LPeer (p : Peer.t)
| LPointer.

Record LogLine := mkLog { log_level : LogLevel; log_items : list LogItem }.

Definition qDebug (items : list LogItem) : LogLine := mkLog QtDebugMsg items.
Definition qWarning (items : list LogItem) : LogLine := mkLog QtWarningMsg items.
Definition qCInfo (items : list LogItem) : LogLine := mkLog QtInfoMsg items.


Module TLPeer.
Record t := mk { tlType : TLValue.t; userId : Z; chatId : Z; channelId : Z }.
  (** [TLPeer()] *)
Definition default : t := mk TLValue.PeerUser 0 0 0.
End TLPeer.

Module TLInputPeer.
Record t := mk {
    tlType : TLValue.t;
    chatId : Z;
    userId : Z;
    accessHash : Z;
    channelId : Z
  }.
  (** [TLInputPeer()] *)
Definition default : t := mk TLValue.InputPeerEmpty 0 0 0 0.

Definition set_tlType (v : TLValue.t) (p : t) : t :=
    mk v (chatId p) (userId p) (accessHash p) (channelId p).
Definition set_chatId (v : Z) (p : t) : t :=
    mk (tlType p) v (userId p) (accessHash p) (channelId p).
Definition set_userId (v : Z) (p : t) : t :=
    mk (tlType p) (chatId p) v (accessHash p) (channelId p).
Definition set_accessHash (v : Z) (p : t) : t :=
    mk (tlType p) (chatId p) (userId p) v (channelId p).
Definition set_channelId (v : Z) (p : t) : t :=
    mk (tlType p) (chatId p) (userId p) (accessHash p) v.
End TLInputPeer.

(** Bit masks and enumerators declared in the TL and public headers.  Their
    numeric values are fixed by those headers; the code only combines them
    with [&] and [|], so they are kept abstract here. *)
Class TLConstants := {
  TLUser_Self : Z;
  TLMessage_Out : Z;
  TLMessage_FwdFrom : Z;
  TLMessageFwdHeader_FromId : Z;
  MessageFlagNone : Z;
  MessageFlagOut : Z;
  MessageFlagForwarded : Z
}.

(** An integer used as a C++ condition. *)
Definition truthy (z : Z) : bool := negb (z =? 0).

Module TLUser.
Record t := mk {
    tlType : TLValue.t;
    flags : Z;
    id : Z;
    accessHash : Z;
    firstName : string;
    lastName : string;
    username : string;
    phone : string
  }.
  (** [TLUser()] *)
Definition default : t := mk TLValue.UserEmpty 0 0 0 "" "" "" "".
  (** [bool TLUser::self() const { return flags & Self; }] *)
Definition self `{TLConstants} (u : t) : bool :=
    truthy (Z.land (flags u) TLUser_Self).
End TLUser.

Module TLChat.
Record t := mk {
    tlType : TLValue.t;
    flags : Z;
    id : Z;
    title : string;
    accessHash : Z;
    date : Z
  }.
  (** [TLChat()] *)
Definition default : t := mk TLValue.ChatEmpty 0 0 "" 0 0.
End TLChat.

Module TLMessageFwdHeader.
Record t := mk {
    flags : Z;
    fromId : Z;
    date : Z;
    channelId : Z;
    channelPost : Z
  }.
Definition default : t := mk 0 0 0 0 0.
End TLMessageFwdHeader.

Module TLMessage.
Record t := mk {
    tlType : TLValue.t;
    flags : Z;
    id : Z;
    fromId : Z;
    toId : TLPeer.t;
    fwdFrom : TLMessageFwdHeader.t;
    date : Z;
    message : string
  }.
  (** [TLMessage()] *)
Definition default : t :=
    mk TLValue.MessageEmpty 0 0 0 TLPeer.default TLMessageFwdHeader.default 0 "".
  (** [bool TLMessage::out() const { return flags & Out; }] *)
Definition out `{TLConstants} (m : t) : bool :=
    truthy (Z.land (flags m) TLMessage_Out).
End TLMessage.

Module TLDialog.
Record t := mk {
    flags : Z;
    peer : TLPeer.t;
    topMessage : Z;
    readInboxMaxId : Z;
    readOutboxMaxId : Z;
    unreadCount : Z
  }.
Definition default : t := mk 0 TLPeer.default 0 0 0 0.
End TLDialog.

Module TLContact.
Record t := mk { userId : Z; mutual : bool }.
End TLContact.

Module TLMessagesDialogs.
Record t := mk {
    tlType : TLValue.t;
    dialogs : list TLDialog.t;
    messages : list TLMessage.t;
    chats : list TLChat.t;
    users : list TLUser.t;
    count : Z
  }.
Definition default : t := mk TLValue.MessagesDialogs [] [] [] [] 0.
End TLMessagesDialogs.

Module TLMessagesMessages.
Record t := mk {
    messages : list TLMessage.t;
    chats : list TLChat.t;
    users : list TLUser.t;
    count : Z
  }.
End TLMessagesMessages.

Module TLAuthAuthorization.
Record t := mk { flags : Z; tmpSessions : Z; user : TLUser.t }.
End TLAuthAuthorization.

(** [Telegram::UserInfo], [ChatInfo] and [DialogInfo] hold one TL object each,
    reached through [Private::get]. *)
Record UserInfo := mkUserInfo { UserInfo_data : TLUser.t }.
Record ChatInfo := mkChatInfo { ChatInfo_data : TLChat.t }.
Record DialogInfo := mkDialogInfo { DialogInfo_data : TLDialog.t }.

(** [TelegramNamespace::MessageType] *)
Inductive MessageType :=
| MessageTypeUnknown | MessageTypeText | MessageTypePhoto | MessageTypeAudio
| MessageTypeVideo | MessageTypeContact | MessageTypeDocument
| MessageTypeGeo | MessageTypeWebPage.

(** [Telegram::Message] *)
Module Message.
Record t := mk {
    fromId : Z;
    id : Z;
    timestamp : Z;
    fwdTimestamp : Z;
    type : MessageType;
    text : string;
    flags : Z;
    m_peer : Peer.t;
    m_forwardPeer : Peer.t
  }.
  (** [Message::forwardFromPeer()] *)
Definition forwardFromPeer (m : t) : Peer.t := m_forwardPeer m.

Definition set_type (v : MessageType) (m : t) : t :=
    mk (fromId m) (id m) (timestamp m) (fwdTimestamp m) v (text m) (flags m)
       (m_peer m) (m_forwardPeer m).
Definition set_fromId (v : Z) (m : t) : t :=
    mk v (id m) (timestamp m) (fwdTimestamp m) (type m) (text m) (flags m)
       (m_peer m) (m_forwardPeer m).
Definition set_timestamp (v : Z) (m : t) : t :=
    mk (fromId m) (id m) v (fwdTimestamp m) (type m) (text m) (flags m)
       (m_peer m) (m_forwardPeer m).
Definition set_text (v : string) (m : t) : t :=
    mk (fromId m) (id m) (timestamp m) (fwdTimestamp m) (type m) v (flags m)
       (m_peer m) (m_forwardPeer m).
Definition set_flags (v : Z) (m : t) : t :=
    mk (fromId m) (id m) (timestamp m) (fwdTimestamp m) (type m) (text m) v
       (m_peer m) (m_forwardPeer m).
End Message.

(** ** DataStorage.cpp *)

Module Client.

(** [class DataInternalApi] *)
Record DataInternalApi := mkApi {
  m_selfUserId : Z;
  m_users : gmap Z TLUser.t;
  m_chats : gmap Z TLChat.t;
  m_clientMessages : gmap Z TLMessage.t;
  m_channelMessages : gmap Z TLMessage.t;
  m_dialogs : TLMessagesDialogs.t;
  m_contactList : list TLContact.t
}.

(** [DataInternalApi::DataInternalApi] *)
Definition DataInternalApi_new : DataInternalApi :=
  mkApi 0 ∅ ∅ ∅ ∅ TLMessagesDialogs.default [].

Definition set_m_selfUserId (v : Z) (s : DataInternalApi) : DataInternalApi :=
  mkApi v (m_users s) (m_chats s) (m_clientMessages s) (m_channelMessages s)
        (m_dialogs s) (m_contactList s).
Definition set_m_users (v : gmap Z TLUser.t) (s : DataInternalApi) :=
  mkApi (m_selfUserId s) v (m_chats s) (m_clientMessages s)
        (m_channelMessages s) (m_dialogs s) (m_contactList s).
Definition set_m_chats (v : gmap Z TLChat.t) (s : DataInternalApi) :=
  mkApi (m_selfUserId s) (m_users s) v (m_clientMessages s)
        (m_channelMessages s) (m_dialogs s) (m_contactList s).
Definition set_m_clientMessages (v : gmap Z TLMessage.t) (s : DataInternalApi) :=
  mkApi (m_selfUserId s) (m_users s) (m_chats s) v (m_channelMessages s)
        (m_dialogs s) (m_contactList s).
Definition set_m_channelMessages (v : gmap Z TLMessage.t) (s : DataInternalApi) :=
  mkApi (m_selfUserId s) (m_users s) (m_chats s) (m_clientMessages s) v
        (m_dialogs s) (m_contactList s).
Definition set_m_dialogs (v : TLMessagesDialogs.t) (s : DataInternalApi) :=
  mkApi (m_selfUserId s) (m_users s) (m_chats s) (m_clientMessages s)
        (m_channelMessages s) v (m_contactList s).
Definition set_m_contactList (v : list TLContact.t) (s : DataInternalApi) :=
  mkApi (m_selfUserId s) (m_users s) (m_chats s) (m_clientMessages s)
        (m_channelMessages s) (m_dialogs s) v.

(** [QHash::contains] *)
Definition contains {V} (h : gmap Z V) (k : Z) : bool :=
  match h !! k with Some _ => true | None => false end.

(** A [void] member function of [DataInternalApi]: the object after the call
    and the log lines written during it. *)
Definition Update := DataInternalApi -> DataInternalApi * list LogLine.

Definition andThen (f g : Update) : Update := fun s =>
  let '(s1, l1) := f s in
  let '(s2, l2) := g s1 in
  (s2, l1 ++ l2).

(** [for (const T &x : xs) { f(x); }] *)
Fixpoint forEach {A} (f : A -> Update) (xs : list A) : Update :=
  match xs with
  | [] => fun s => (s, [])
  | x :: rest => andThen (f x) (forEach f rest)
  end.


(** [DataInternalApi::getSelfUser] *)
Definition getSelfUser (s : DataInternalApi) : option TLUser.t :=
  if negb (truthy (m_selfUserId s)) then None
  else m_users s !! m_selfUserId s.

(** [DataInternalApi::channelMessageToKey]: [key] is a [quint64]. *)
Definition channelMessageToKey (channelId messageId : Z) : Z :=
  let key := channelId in
  wrap64 (wrap64 (Z.shiftl key 32) + messageId).

(** [DataInternalApi::processData(const TLMessage &)] *)
Definition processData_TLMessage (message : TLMessage.t) : Update := fun s =>
  if decide (TLPeer.tlType (TLMessage.toId message) = TLValue.PeerChannel) then
    let key := channelMessageToKey (TLPeer.channelId (TLMessage.toId message))
                                   (TLMessage.id message) in
    let h := if negb (contains (m_channelMessages s) key)
             then <[key := TLMessage.default]> (m_channelMessages s)
             else m_channelMessages s in
    (* m = m_channelMessages.value(key); *m = message *)
    (set_m_channelMessages (alter (fun _ => message) key h) s, [])
  else
    let key := TLMessage.id message in
    let h := if negb (contains (m_clientMessages s) key)
             then <[key := TLMessage.default]> (m_clientMessages s)
             else m_clientMessages s in
    (set_m_clientMessages (alter (fun _ => message) key h) s, []).

(** [DataInternalApi::processData(const TLChat &)] *)
Definition processData_TLChat (chat : TLChat.t) : Update := fun s =>
  if negb (contains (m_chats s) (TLChat.id chat)) then
    (set_m_chats (<[TLChat.id chat := chat]> (m_chats s)) s, [])
  else
    (set_m_chats (alter (fun _ => chat) (TLChat.id chat) (m_chats s)) s, []).

(** [DataInternalApi::processData(const TLVector<TLChat> &)] *)
Definition processData_TLChats (chats : list TLChat.t) : Update :=
  forEach processData_TLChat chats.

Section WithConstants.
Context `{TLConstants}.

(** [DataInternalApi::processData(const TLUser &)] *)
Definition processData_TLUser (user : TLUser.t) : Update := fun s =>
  let existsUser := m_users s !! TLUser.id user in
  let s1 :=
    match existsUser with
    | Some _ =>
        set_m_users (alter (fun _ => user) (TLUser.id user) (m_users s)) s
    | None =>
        set_m_users (<[TLUser.id user := user]> (m_users s)) s
    end in
  if TLUser.self user then
    let warn :=
      if truthy (m_selfUserId s1) && negb (m_selfUserId s1 =? TLUser.id user)
      then [qWarning [LStr "Got self user with different id."]]
      else [] in
    (set_m_selfUserId (TLUser.id user) s1, warn)
  else (s1, []).

(** [DataInternalApi::processData(const TLVector<TLUser> &)] *)
Definition processData_TLUsers (users : list TLUser.t) : Update :=
  forEach processData_TLUser users.

(** [DataInternalApi::processData(const TLAuthAuthorization &)] *)
Definition processData_TLAuthAuthorization
    (authorization : TLAuthAuthorization.t) : Update :=
  processData_TLUser (TLAuthAuthorization.user authorization).

(** [DataInternalApi::processData(const TLMessagesDialogs &)] *)
Definition processData_TLMessagesDialogs
    (dialogs : TLMessagesDialogs.t) : Update :=
  andThen (fun s => (set_m_dialogs dialogs s, []))
    (andThen (processData_TLUsers (TLMessagesDialogs.users dialogs))
      (andThen (processData_TLChats (TLMessagesDialogs.chats dialogs))
        (forEach processData_TLMessage (TLMessagesDialogs.messages dialogs)))).

(** [DataInternalApi::processData(const TLMessagesMessages &)] *)
Definition processData_TLMessagesMessages
    (messages : TLMessagesMessages.t) : Update :=
  andThen (processData_TLUsers (TLMessagesMessages.users messages))
    (andThen (processData_TLChats (TLMessagesMessages.chats messages))
      (forEach processData_TLMessage (TLMessagesMessages.messages messages))).

End WithConstants.

(** [DataInternalApi::setContactList] *)
Definition setContactList (contacts : list TLContact.t) : Update :=
  fun s => (set_m_contactList contacts s, []).

(** [DataInternalApi::toInputPeer]: a [const] member, so the object is not
    part of the result. *)
Definition toInputPeer (s : DataInternalApi) (peer : Peer.t)
    : TLInputPeer.t * list LogLine :=
  let inputPeer := TLInputPeer.default in
  match Peer.type peer with
  | Peer.Chat =>
      let inputPeer := TLInputPeer.set_tlType TLValue.InputPeerChat inputPeer in
      let inputPeer := TLInputPeer.set_chatId (Peer.id peer) inputPeer in
      (inputPeer, [])
  | Peer.Channel =>
      match m_chats s !! Peer.id peer with
      | Some chat =>
          let inputPeer :=
            TLInputPeer.set_tlType TLValue.InputPeerChannel inputPeer in
          let inputPeer := TLInputPeer.set_channelId (Peer.id peer) inputPeer in
          let inputPeer :=
            TLInputPeer.set_accessHash (TLChat.accessHash chat) inputPeer in
          (inputPeer, [])
      | None =>
          (inputPeer,
           [qWarning [LStr "DataInternalApi::toInputPeer";
                      LStr "Unknown public channel id"; LNum (Peer.id peer)]])
      end
  | Peer.User =>
      if Peer.id peer =? m_selfUserId s then
        (TLInputPeer.set_tlType TLValue.InputPeerSelf inputPeer, [])
      else
        match m_users s !! Peer.id peer with
        | Some user =>
            let inputPeer :=
              TLInputPeer.set_tlType TLValue.InputPeerUser inputPeer in
            let inputPeer := TLInputPeer.set_userId (Peer.id peer) inputPeer in
            let inputPeer :=
              TLInputPeer.set_accessHash (TLUser.accessHash user) inputPeer in
            (inputPeer, [])
        | None =>
            (inputPeer,
             [qWarning [LStr "DataInternalApi::toInputPeer";
                        LStr "Unknown user"; LNum (Peer.id peer)]])
        end
  | Peer.Unknown =>
      (inputPeer,
       [qWarning [LStr "DataInternalApi::toInputPeer";
                  LStr "Unknown peer type"; LPeer peer]])
  end.

(** [class DataStorage]: [d->m_api] and [d->m_serverConfig]. *)
Record DataStorage := mkStorage {
  m_api : DataInternalApi;
  m_serverConfig : DcConfiguration.t
}.



(** [storage->internalApi()->f(...)]: a member function of the internal API
    run on the object the storage owns. *)
Definition viaInternalApi (f : Update) (d : DataStorage) : DataStorage :=
  mkStorage (fst (f (m_api d))) (m_serverConfig d).

(** [DataStorage::serverConfiguration] *)
Definition serverConfiguration (d : DataStorage) : DcConfiguration.t :=
  m_serverConfig d.

(** [DataStorage::setServerConfiguration] *)
Definition setServerConfiguration (configuration : DcConfiguration.t)
    (d : DataStorage) : DataStorage :=
  mkStorage (m_api d) configuration.

(** [DataStorage::contactList] *)
Definition contactList (d : DataStorage) : list Peer.t :=
  map (fun contact => Peer.fromUserId (TLContact.userId contact))
      (m_contactList (m_api d)).


(** [DataStorage::getUserInfo]: the result, the object behind [info] after
    the call, and the log. *)
Definition getUserInfo (d : DataStorage) (info : UserInfo) (userId : Z)
    : bool * UserInfo * list LogLine :=
  let users := m_users (m_api d) in
  match users !! userId with
  | None =>
      (false, info,
       [qDebug [LStr "DataStorage::getUserInfo"; LStr "Unknown user";
                LNum userId]])
  | Some user => (true, mkUserInfo user, [])
  end.

(** [DataStorage::getChatInfo] *)
Definition getChatInfo (d : DataStorage) (info : ChatInfo) (chatId : Z)
    : bool * ChatInfo * list LogLine :=
  let chats := m_chats (m_api d) in
  match chats !! chatId with
  | None =>
      (false, info,
       [qDebug [LStr "DataStorage::getChatInfo"; LStr "Unknown user";
                LNum chatId]])
  | Some chat => (true, mkChatInfo chat, [])
  end.

Section WithUtils.
Context `{TLConstants}.
(** [Utils::toPublicPeer(const TLPeer &)], defined in [ApiUtils.cpp]. *)
Variable toPublicPeer : TLPeer.t -> Peer.t.

(** [DataStorage::dialogs] *)
Definition dialogs (d : DataStorage) : list Peer.t :=
  map (fun dialog => toPublicPeer (TLDialog.peer dialog))
      (TLMessagesDialogs.dialogs (m_dialogs (m_api d))).

(** The loop of [DataStorage::getDialogInfo]: the first dialog whose public
    peer equals [peer]. *)
Fixpoint findDialog (dialogs : list TLDialog.t) (peer : Peer.t)
    : option TLDialog.t :=
  match dialogs with
  | [] => None
  | dialog :: rest =>
      let thisDialogPeer := toPublicPeer (TLDialog.peer dialog) in
      if decide (thisDialogPeer = peer) then Some dialog
      else findDialog rest peer
  end.

(** [DataStorage::getDialogInfo] *)
Definition getDialogInfo (d : DataStorage) (info : DialogInfo) (peer : Peer.t)
    : bool * DialogInfo * list LogLine :=
  let dialogs := m_dialogs (m_api d) in
  match findDialog (TLMessagesDialogs.dialogs dialogs) peer with
  | Some dialog => (true, mkDialogInfo dialog, [])
  | None =>
      (false, info,
       [qDebug [LStr "DataStorage::getDialogInfo"; LStr "Unknown dialog";
                LPeer peer]])
  end.

(** The stored message [DataStorage::getMessage] reads: [m], or [nullptr]. *)
Definition lookupMessage (d : DataStorage) (peer : Peer.t) (messageId : Z)
    : option TLMessage.t :=
  if decide (Peer.type peer = Peer.Channel) then
    let key := channelMessageToKey (Peer.id peer) messageId in
    m_channelMessages (m_api d) !! key
  else
    m_clientMessages (m_api d) !! messageId.

(** [DataStorage::getMessage] *)
Definition getMessage (d : DataStorage) (message : Message.t) (peer : Peer.t)
    (messageId : Z) : bool * Message.t * list LogLine :=
  match lookupMessage d peer messageId with
  | None =>
      (false, message,
       [qDebug [LStr "DataStorage::getMessage"; LStr "Unknown message";
                LPeer peer; LPointer]])
  | Some m =>
      let message := Message.set_type MessageTypeText message in
      let message := Message.set_fromId (TLMessage.fromId m) message in
      let message := Message.set_timestamp (TLMessage.date m) message in
      let message := Message.set_text (TLMessage.message m) message in
      let message := Message.set_flags MessageFlagNone message in
      let message :=
        if TLMessage.out m
        then Message.set_flags (Z.lor (Message.flags message) MessageFlagOut)
                               message
        else message in
      let message :=
        if truthy (Z.land (TLMessage.flags m) TLMessage_FwdFrom) then
          let message :=
            Message.set_flags
              (Z.lor (Message.flags message) MessageFlagForwarded) message in
          if truthy (Z.land (TLMessageFwdHeader.flags (TLMessage.fwdFrom m))
                            TLMessageFwdHeader_FromId)
          then (* //message->setForwardFromPeer((m->fwdFrom)) *) message
          else message
        else message in
      (true, message, [])
  end.

End WithUtils.

End Client.

(** ** Server side *)

Module TLInputUser.
Record t := mk { tlType : TLValue.t; userId : Z; accessHash : Z }.
Definition default : t := mk TLValue.InputUserEmpty 0 0.
End TLInputUser.

Module TLUserFull.
Record t := mk {
  flags : Z;
  user : TLUser.t;
  about : string;
  commonChatsCount : Z
}.
(** [TLUserFull()] *)
Definition default : t := mk 0 TLUser.default "" 0.
Definition set_user (v : TLUser.t) (r : t) : t :=
  mk (flags r) v (about r) (commonChatsCount r).
End TLUserFull.

Module RpcError.
(** [RpcError::Reason]: the enumerator the sources at hand use. *)
Inductive Reason := UserIdInvalid.

(** The error as it goes on the wire: [rpc_error { code, message }]. *)
Record t := mk { type : Z; message : string }.

(** Modelled from the spec: [RpcError.hpp] is not among the sources.  The
    specification gives the wire form of [RpcError::UserIdInvalid] as
    [rpc_error { 400, "USER_ID_INVALID" }]. *)
Definition fromReason (r : Reason) : t :=
  match r with
  | UserIdInvalid => mk 400 "USER_ID_INVALID"
  end.
End RpcError.

Module Server.

(** The part of [class ServerApi] the two translation units call.  The class
    is an interface of the server; [AbstractUser] and [LocalUser] are its
    user objects. *)
Class ServerApi := {
  AbstractUser : Type;
  LocalUser : Type;
  (** [QByteArray getAuthKeyById(quint64)]: empty when there is none. *)
  getAuthKeyById : Z -> QByteArray;
  (** [AbstractUser *getUser(const TLInputUser &, LocalUser *self)] *)
  getUser : TLInputUser.t -> option LocalUser -> option AbstractUser;
  (** [bool Utils::setupTLUser(TLUser *output, const AbstractUser *input,
      const LocalUser *forUser)] of [ServerUtils]: the result and [*output]. *)
  setupTLUser : TLUser.t -> AbstractUser -> option LocalUser -> bool * TLUser.t
}.

(** *** RemoteClientConnection.cpp *)

(** [BaseConnection::Status] and [StatusReason] *)
Inductive Status :=
| Status_Disconnected | Status_Disconnecting | Status_Connecting
| Status_Connected | Status_HasDhKey | Status_Signed | Status_Failed.

Inductive StatusReason :=
| StatusReason_None | StatusReason_Local | StatusReason_Remote
| StatusReason_Timeout.

(** The slots of the connection that [packetReceived] gets connected to. *)
Inductive Slot := Slot_onTransportPacketReceived | Slot_sendKeyError.

#[global] Instance Slot_eq_dec : EqDecision Slot.
Proof. solve_decision. Defined.

(** [m_transport]: the packets handed to [sendPacket], oldest first, and the
    connections of its [packetReceived] signal to this connection object. *)
Record Transport := mkTransport {
  sentPackets : list QByteArray;
  packetReceived : list Slot;
  remoteAddress : string
}.

(** [BaseTransport::sendPacket] *)
Definition sendPacket (package : QByteArray) (t : Transport) : Transport :=
  mkTransport (sentPackets t ++ [package]) (packetReceived t) (remoteAddress t).

(** [QObject::disconnect(sender, signal, receiver, slot)] removes every
    connection of the signal to that slot; [QObject::connect] adds one. *)
Definition disconnect (slot : Slot) (t : Transport) : Transport :=
  mkTransport (sentPackets t)
              (filter (fun s => s <> slot) (packetReceived t))
              (remoteAddress t).

Definition connect (slot : Slot) (t : Transport) : Transport :=
  mkTransport (sentPackets t) (packetReceived t ++ [slot]) (remoteAddress t).

(** [m_sendHelper] *)
Record MTProtoSendHelper := mkSendHelper {
  m_authKey : QByteArray;
  m_authId : Z
}.

(** [MTProtoSendHelper::authId] *)
Definition authId (h : MTProtoSendHelper) : Z := m_authId h.

Record RemoteClientConnection := mkConnection {
  m_sendHelper : MTProtoSendHelper;
  m_transport : Transport;
  m_status : Status;
  m_statusReason : StatusReason
}.

Definition set_m_sendHelper (v : MTProtoSendHelper) (c : RemoteClientConnection)
    : RemoteClientConnection :=
  mkConnection v (m_transport c) (m_status c) (m_statusReason c).
Definition set_m_transport (v : Transport) (c : RemoteClientConnection)
    : RemoteClientConnection :=
  mkConnection (m_sendHelper c) v (m_status c) (m_statusReason c).

(** [BaseConnection::setStatus], declared in [Connection.hpp]: records the
    status and its reason. *)
Definition setStatus (status : Status) (reason : StatusReason)
    (c : RemoteClientConnection) : RemoteClientConnection :=
  mkConnection (m_sendHelper c) (m_transport c) status reason.

(** Hexadecimal digits, for [QByteArray::fromHex]. *)
Definition hexDigit (c : ascii) : option Z :=
  let n := Z.of_nat (nat_of_ascii c) in
  if (48 <=? n) && (n <=? 57) then Some (n - 48)
  else if (97 <=? n) && (n <=? 102) then Some (n - 97 + 10)
  else if (65 <=? n) && (n <=? 70) then Some (n - 65 + 10)
  else None.

Fixpoint hexDigits (s : string) : list Z :=
  match s with
  | EmptyString => []
  | String c rest =>
      match hexDigit c with
      | Some d => d :: hexDigits rest
      | None => hexDigits rest
      end
  end.

Fixpoint pairUp (ds : list Z) : QByteArray :=
  match ds with
  | hi :: lo :: rest => (hi * 16 + lo) :: pairUp rest
  | _ => []
  end.

(** [QByteArray::fromHex]: characters that are not hexadecimal digits are
    skipped; an odd number of digits is read as if a [0] came first. *)
Definition fromHex (s : string) : QByteArray :=
  let ds := hexDigits s in
  pairUp (if Nat.odd (length ds) then 0 :: ds else ds).

(** [static const QByteArray errorPackage] of [sendKeyError] *)
Definition errorPackage : QByteArray := fromHex "6cfeffff".

(** [RemoteClientConnection::sendKeyError] *)
Definition sendKeyError (c : RemoteClientConnection) : RemoteClientConnection :=
  set_m_transport (sendPacket errorPackage (m_transport c)) c.

(** The outcome that the key is refused: the call returned [false] and took [c]
    to [c'], which has failed, has sent the key error frame as its last
    packet, keeps the key it had, and no longer hands inbound packets to the
    regular handler but answers each with the key error frame. *)
Definition refused (c : RemoteClientConnection)
    (outcome : bool * RemoteClientConnection) : Prop :=
  let c' := snd outcome in
  fst outcome = false
  /\ m_status c' = Status_Failed
  /\ sentPackets (m_transport c')
     = (sentPackets (m_transport c) ++ [[0x6c; 0xfe; 0xff; 0xff]])
  /\ m_sendHelper c' = m_sendHelper c
  /\ (Slot_onTransportPacketReceived ∉ packetReceived (m_transport c'))
  /\ (Slot_sendKeyError ∈ packetReceived (m_transport c')).

Section Connection.
Context `{ServerApi}.
(** The id of an auth key: the low 64 bits of its SHA-1. *)
Variable authKeyIdOf : QByteArray -> Z.

(** Modelled from the spec: [MTProtoSendHelper::setAuthKey] is declared in
    [SendPackageHelper.hpp], which is not among the sources.  The send helper
    stores the key and derives its id on set. *)
Definition setAuthKey (authKey : QByteArray) (h : MTProtoSendHelper)
    : MTProtoSendHelper :=
  mkSendHelper authKey (authKeyIdOf authKey).

(** Lines 100 to 104 of [processAuthKey]: the packet handler is replaced by
    [sendKeyError], the connection fails, the error frame goes out. *)
Definition rejectAuthKey (c : RemoteClientConnection)
    : bool * RemoteClientConnection :=
  let c := set_m_transport
             (disconnect Slot_onTransportPacketReceived (m_transport c)) c in
  let c := set_m_transport (connect Slot_sendKeyError (m_transport c)) c in
  let c := setStatus Status_Failed StatusReason_Local c in
  let c := sendKeyError c in
  (false, c).

(** [RemoteClientConnection::processAuthKey]: the result, the connection
    after the call, and the log. *)
Definition processAuthKey (c : RemoteClientConnection) (authKeyId : Z)
    : bool * RemoteClientConnection * list LogLine :=
  if authKeyId =? authId (m_sendHelper c) then (true, c, [])
  else if truthy (authId (m_sendHelper c)) then
    (rejectAuthKey c,
     [qCInfo [LStr (remoteAddress (m_transport c));
              LStr "new session authKeyId"; LNum authKeyId;
              LStr "is different from the expected";
              LNum (authId (m_sendHelper c))]])
  else
    let authKey := getAuthKeyById authKeyId in
    if isEmpty authKey then
      (rejectAuthKey c,
       [qCInfo [LStr (remoteAddress (m_transport c));
                LStr "Unable to find an authorization with id";
                LNum authKeyId]])
    else
      (true, set_m_sendHelper (setAuthKey authKey (m_sendHelper c)) c,
       [qCInfo [LStr (remoteAddress (m_transport c));
                LStr "assign exists session (by auth key id)";
                LNum authKeyId]]).

(** What the connection does with the next inbound packet, by the slots
    connected to [packetReceived]: only [sendKeyError] is modelled; the
    regular handler [onTransportPacketReceived] is outside these sources. *)
Definition handlesPacketsNormally (c : RemoteClientConnection) : Prop :=
  Slot_onTransportPacketReceived ∈ packetReceived (m_transport c).

End Connection.

(** *** UsersOperationFactory.cpp *)

Section UsersRpcOperation.
Context `{ServerApi}.

(** [TLFunctions::TLUsersGetFullUser] *)
Record TLUsersGetFullUser := mkGetFullUser { getFullUser_id : TLInputUser.t }.

(** What the operation hands to the RPC layer for sending. *)
Inductive Sent :=
| SentRpcError (e : RpcError.t)
| SentRpcReply (result : TLUserFull.t).

(** [class UsersRpcOperation]: the parsed argument, the user of the layer
    ([layer()->getUser()], possibly null), and what was sent so far. *)
Record UsersRpcOperation := mkOperation {
  m_getFullUser : TLUsersGetFullUser;
  layer_getUser : option LocalUser;
  sent : list Sent
}.

(** [RpcOperation::sendRpcError] and [sendRpcReply] *)
Definition sendRpcError (reason : RpcError.Reason) (op : UsersRpcOperation)
    : UsersRpcOperation :=
  mkOperation (m_getFullUser op) (layer_getUser op)
              (sent op ++ [SentRpcError (RpcError.fromReason reason)]).

Definition sendRpcReply (result : TLUserFull.t) (op : UsersRpcOperation)
    : UsersRpcOperation :=
  mkOperation (m_getFullUser op) (layer_getUser op)
              (sent op ++ [SentRpcReply result]).

(** [UsersRpcOperation::runGetFullUser] *)
Definition runGetFullUser (op : UsersRpcOperation) : UsersRpcOperation :=
  let self := layer_getUser op in
  let user := getUser (getFullUser_id (m_getFullUser op)) self in
  match user with
  | None => sendRpcError RpcError.UserIdInvalid op
  | Some user =>
      let result := TLUserFull.default in
      let result :=
        TLUserFull.set_user
          (snd (setupTLUser (TLUserFull.user result) user self)) result in
      sendRpcReply result op
  end.

End UsersRpcOperation.

(** The [users.getUsers] side of [class UsersRpcOperation]: the same class,
    seen through the members that [runGetUsers] uses. *)
Section GetUsers.
Context `{ServerApi}.

(** [TLFunctions::TLUsersGetUsers] *)
Record TLUsersGetUsers := mkGetUsers { getUsers_id : list TLInputUser.t }.

(** What [runGetUsers] hands to the RPC layer: the error, or the vector. *)
Inductive SentUsers :=
| SentUsersError (e : RpcError.t)
| SentUsersReply (result : list TLUser.t).

Record GetUsersOperation := mkUsersOperation {
  m_getUsers : TLUsersGetUsers;
  users_layer_getUser : option LocalUser;
  users_sent : list SentUsers
}.

Definition users_sendRpcError (reason : RpcError.Reason)
    (op : GetUsersOperation) : GetUsersOperation :=
  mkUsersOperation (m_getUsers op) (users_layer_getUser op)
    (users_sent op ++ [SentUsersError (RpcError.fromReason reason)]).

Definition users_sendRpcReply (result : list TLUser.t)
    (op : GetUsersOperation) : GetUsersOperation :=
  mkUsersOperation (m_getUsers op) (users_layer_getUser op)
    (users_sent op ++ [SentUsersReply result]).

(** The loop of [runGetUsers].  [user] is the one [TLUser] object declared
    before the loop, which every [setupTLUser] call writes into; [result] is
    the vector built so far.  [None] is the early [return] after the error. *)
Fixpoint runGetUsers_loop (self : option LocalUser)
    (inputs : list TLInputUser.t) (user : TLUser.t) (result : list TLUser.t)
    : option (list TLUser.t) :=
  match inputs with
  | [] => Some result
  | input :: rest =>
      match getUser input self with
      | None => None
      | Some remoteUser =>
          let '(ok, user) := setupTLUser user remoteUser self in
          runGetUsers_loop self rest user
            (if ok then result ++ [user] else result)
      end
  end.

(** [UsersRpcOperation::runGetUsers] *)
Definition runGetUsers (op : GetUsersOperation) : GetUsersOperation :=
  let self := users_layer_getUser op in
  match runGetUsers_loop self (getUsers_id (m_getUsers op)) TLUser.default []
  with
  | None => users_sendRpcError RpcError.UserIdInvalid op
  | Some result => users_sendRpcReply result op
  end.

End GetUsers.

End Server.

(** ** Vocabulary of the specification *)

(** The transport frames a packet by its length, a 32-bit little-endian
    integer; a negative length is an error code. *)
Fixpoint fromLittleEndian (bytes : QByteArray) : Z :=
  match bytes with
  | [] => 0
  | b :: rest => b + 256 * fromLittleEndian rest
  end.

Definition toLittleEndian32 (z : Z) : QByteArray :=
  [z mod 256; (z / 256) mod 256; (z / 65536) mod 256; (z / 16777216) mod 256].

(** The value of a 32-bit pattern read as a signed integer. *)
Definition toInt32 (z : Z) : Z :=
  if wrap32 z <? 2 ^ 31 then wrap32 z else wrap32 z - 2 ^ 32.

(** The peer an [InputPeer] stands for, given the id of the self user: the
    reading under which a resolved peer can be resolved again. *)
Definition denotedPeer (selfId : Z) (inputPeer : TLInputPeer.t)
    : option Peer.t :=
  match TLInputPeer.tlType inputPeer with
  | TLValue.InputPeerSelf => Some (Peer.mk Peer.User selfId)
  | TLValue.InputPeerUser =>
      Some (Peer.mk Peer.User (TLInputPeer.userId inputPeer))
  | TLValue.InputPeerChat =>
      Some (Peer.mk Peer.Chat (TLInputPeer.chatId inputPeer))
  | TLValue.InputPeerChannel =>
      Some (Peer.mk Peer.Channel (TLInputPeer.channelId inputPeer))
  | _ => None
  end.

(** ** Relations between stores *)

(** Nothing that [s] holds is missing from [s']: every user, chat and
    message key of [s] is a key of [s']. *)
Definition keepsKeys (s s' : Client.DataInternalApi) : Prop :=
  (forall k, is_Some (Client.m_users s !! k) ->
             is_Some (Client.m_users s' !! k))
  /\ (forall k, is_Some (Client.m_chats s !! k) ->
                is_Some (Client.m_chats s' !! k))
  /\ (forall k, is_Some (Client.m_clientMessages s !! k) ->
                is_Some (Client.m_clientMessages s' !! k))
  /\ (forall k, is_Some (Client.m_channelMessages s !! k) ->
                is_Some (Client.m_channelMessages s' !! k)).

(** [message] is held under its key in the index of its kind. *)
Definition messageStored (message : TLMessage.t) (s : Client.DataInternalApi)
    : Prop :=
  if decide (TLPeer.tlType (TLMessage.toId message) = TLValue.PeerChannel)
  then is_Some (Client.m_channelMessages s
                  !! Client.channelMessageToKey
                       (TLPeer.channelId (TLMessage.toId message))
                       (TLMessage.id message))
  else is_Some (Client.m_clientMessages s !! TLMessage.id message).

(** Every object is held under its own key: a user and a chat under its
    id, a plain message under its id in the plain index, a channel message
    under its channel message key in the channel index. *)
Definition wellKeyed (s : Client.DataInternalApi) : Prop :=
  (forall k user, Client.m_users s !! k = Some user -> TLUser.id user = k)
  /\ (forall k chat, Client.m_chats s !! k = Some chat -> TLChat.id chat = k)
  /\ (forall k message, Client.m_clientMessages s !! k = Some message ->
        TLMessage.id message = k
        /\ TLPeer.tlType (TLMessage.toId message) <> TLValue.PeerChannel)
  /\ (forall k message, Client.m_channelMessages s !! k = Some message ->
        Client.channelMessageToKey
          (TLPeer.channelId (TLMessage.toId message)) (TLMessage.id message)
        = k
        /\ TLPeer.tlType (TLMessage.toId message) = TLValue.PeerChannel).

(** ** Sample objects, for evaluating the definitions *)

Module Sample.

(** One bit per flag. *)
Definition constants : TLConstants := {|
  TLUser_Self := Z.shiftl 1 10;
  TLMessage_Out := Z.shiftl 1 1;
  TLMessage_FwdFrom := Z.shiftl 1 2;
  TLMessageFwdHeader_FromId := Z.shiftl 1 0;
  MessageFlagNone := 0;
  MessageFlagOut := 2;
  MessageFlagForwarded := 4
|}.

(** A stand-in for the SHA-1 based id of a key: its first byte. *)
Definition keyId (key : QByteArray) : Z :=
  match key with [] => 0 | b :: _ => b end.

(** A registry with two auth keys, under ids 5 and 7, and one user, with
    id 1. *)
Definition boundKey : QByteArray := [5; 9].
Definition registeredKey : QByteArray := [7; 2; 3; 4].

Definition api : Server.ServerApi := {|
  Server.AbstractUser := Z;
  Server.LocalUser := Z;
  Server.getAuthKeyById := fun id =>
    if id =? 7 then registeredKey else if id =? 5 then boundKey else [];
  Server.getUser := fun input _ =>
    if TLInputUser.userId input =? 1 then Some 1 else None;
  Server.setupTLUser := fun output input _ =>
    (true, TLUser.mk TLValue.User 0 input 0 "" "" "" "")
|}.

Definition transport : Server.Transport :=
  Server.mkTransport [] [Server.Slot_onTransportPacketReceived] "127.0.0.1".

(** A connection with no key yet, and one bound to the key with id 5. *)
Definition freshConnection : Server.RemoteClientConnection :=
  Server.mkConnection (Server.mkSendHelper [] 0) transport
                      Server.Status_Connected Server.StatusReason_None.

Definition boundConnection : Server.RemoteClientConnection :=
  Server.mkConnection (Server.mkSendHelper boundKey (keyId boundKey))
                      transport
                      Server.Status_Signed Server.StatusReason_None.

(** The self user, with id 5. *)
Definition selfUser : TLUser.t :=
  TLUser.mk TLValue.User (Z.shiftl 1 10) 5 1234 "A" "B" "ab" "100".

(** Another user record that carries the self flag, with id 8. *)
Definition secondSelfUser : TLUser.t :=
  TLUser.mk TLValue.User (Z.shiftl 1 10) 8 99 "E" "F" "ef" "300".

(** A store that holds the self user and has 5 as the self user id. *)
Definition store : Client.DataInternalApi :=
  Client.mkApi 5 {[ 5 := selfUser ]} ∅ ∅ ∅ TLMessagesDialogs.default [].

(** A forwarded outgoing message in a plain chat, with the forward header's
    [FromId] flag set. *)
Definition forwarded : TLMessage.t :=
  TLMessage.mk TLValue.Message 6 10 5
    (TLPeer.mk TLValue.PeerUser 6 0 0)
    (TLMessageFwdHeader.mk 1 77 0 0 0) 1500000000 "hello".

Definition storage : Client.DataStorage :=
  Client.mkStorage
    (Client.mkApi 5 {[ 5 := selfUser ]} ∅ {[ 10 := forwarded ]} ∅
                  TLMessagesDialogs.default [])
    (DcConfiguration.mk []).

(** A stand-in for [Utils::toPublicPeer]: the peer named by the tag. *)
Definition toPublicPeer (peer : TLPeer.t) : Peer.t :=
  match TLPeer.tlType peer with
  | TLValue.PeerChat => Peer.mk Peer.Chat (TLPeer.chatId peer)
  | TLValue.PeerChannel => Peer.mk Peer.Channel (TLPeer.channelId peer)
  | _ => Peer.mk Peer.User (TLPeer.userId peer)
  end.

(** Three dialogs, the last two with the same peer. *)
Definition dialogWithChat : TLDialog.t :=
  TLDialog.mk 0 (TLPeer.mk TLValue.PeerChat 0 3 0) 40 0 0 0.
Definition dialogWithUser : TLDialog.t :=
  TLDialog.mk 0 (TLPeer.mk TLValue.PeerUser 6 0 0) 41 0 0 1.
Definition dialogWithUserAgain : TLDialog.t :=
  TLDialog.mk 0 (TLPeer.mk TLValue.PeerUser 6 0 0) 42 0 0 2.

Definition storageWithDialogs : Client.DataStorage :=
  Client.mkStorage
    (Client.mkApi 5 {[ 5 := selfUser ]} ∅ ∅ ∅
       (TLMessagesDialogs.mk TLValue.MessagesDialogs
          [dialogWithChat; dialogWithUser; dialogWithUserAgain] [] [] [] 3)
       [])
    (DcConfiguration.mk []).

(** A channel message and a plain message with the same message id 9. *)
Definition channelPost : TLMessage.t :=
  TLMessage.mk TLValue.Message 0 9 5
    (TLPeer.mk TLValue.PeerChannel 0 0 3)
    TLMessageFwdHeader.default 1500000001 "in channel".

Definition plainPost : TLMessage.t :=
  TLMessage.mk TLValue.Message 0 9 5
    (TLPeer.mk TLValue.PeerUser 6 0 0)
    TLMessageFwdHeader.default 1500000002 "in chat".

Definition storageWithMessages : Client.DataStorage :=
  Client.mkStorage
    (Client.mkApi 5 {[ 5 := selfUser ]} ∅
       {[ 9 := plainPost ]}
       {[ Client.channelMessageToKey 3 9 := channelPost ]}
       TLMessagesDialogs.default [])
    (DcConfiguration.mk []).

Definition emptyMessage : Message.t :=
  Message.mk 0 0 0 0 MessageTypeUnknown "" 0
             (Peer.mk Peer.User 0) (Peer.mk Peer.User 0).

End Sample.

(** * Properties *)

(** ** Machine integers *)

Lemma wrap32_lor (a b : Z) :
  wrap32 (Z.lor a b) = Z.lor (wrap32 a) (wrap32 b).
Proof.
  unfold wrap32. apply Z.bits_inj'. intros n Hn.
  rewrite Z.lor_spec, !Z.testbit_mod_pow2, Z.lor_spec by lia.
  destruct (n <? 32); reflexivity.
Qed.

Lemma wrap32_idem (a : Z) : wrap32 (wrap32 a) = wrap32 a.
Proof. unfold wrap32. apply Z.mod_mod. lia. Qed.

Lemma wrap32_small (a : Z) : is_u32 a -> wrap32 a = a.
Proof. intros Ha. apply Z.mod_small, Ha. Qed.

Lemma wrap32_shiftl (f k : Z) :
  0 <= k -> wrap32 (Z.shiftl (wrap32 f) k) = wrap32 (Z.shiftl f k).
Proof.
  intros Hk. unfold wrap32. apply Z.bits_inj'. intros n Hn.
  rewrite !Z.testbit_mod_pow2 by lia.
  destruct (Z.ltb_spec n 32) as [Hlt | Hge]; [| reflexivity].
  rewrite !Z.shiftl_spec by lia.
  destruct (Z.neg_nonneg_cases (n - k)) as [Hneg | Hpos].
  - rewrite !Z.testbit_neg_r by lia. reflexivity.
  - rewrite Z.testbit_mod_pow2 by lia.
    replace (n - k <? 32) with true by (symmetry; apply Z.ltb_lt; lia).
    reflexivity.
Qed.

Lemma shiftl_u32_bound (f k : Z) :
  0 <= k -> 0 <= f < 2 ^ (32 - k) -> k <= 32 -> is_u32 (Z.shiftl f k).
Proof.
  intros Hk [Hf0 Hf1] Hk32. unfold is_u32. rewrite Z.shiftl_mul_pow2 by lia.
  split; [apply Z.mul_nonneg_nonneg; lia |].
  replace (2 ^ 32) with (2 ^ (32 - k) * 2 ^ k)
    by (rewrite <- Z.pow_add_r by lia; f_equal; lia).
  apply Z.mul_lt_mono_pos_r; [apply Z.pow_pos_nonneg; lia | lia].
Qed.

Lemma lor_u32 (a b : Z) : is_u32 a -> is_u32 b -> is_u32 (Z.lor a b).
Proof.
  unfold is_u32. intros [Ha0 Ha1] [Hb0 Hb1]. split.
  - apply Z.lor_nonneg. lia.
  - destruct (Z.eq_dec (Z.lor a b) 0) as [-> | Hne]; [lia |].
    apply Z.log2_lt_pow2; [pose proof (proj2 (Z.lor_nonneg a b)); lia |].
    rewrite Z.log2_lor by lia.
    apply Z.max_lub_lt.
    + destruct (Z.eq_dec a 0) as [-> | ?]; [simpl; lia |].
      apply Z.log2_lt_pow2; lia.
    + destruct (Z.eq_dec b 0) as [-> | ?]; [simpl; lia |].
      apply Z.log2_lt_pow2; lia.
Qed.

(** ** DcConfiguration *)

Module DcConfigurationFacts.
Import DcConfiguration.

Lemma ConnectionSpec_eq_iff (a b : ConnectionSpec) :
  ConnectionSpec_eq a b = true <-> dcId a = dcId b /\ flags a = flags b.
Proof.
  unfold ConnectionSpec_eq. rewrite andb_true_iff, !Z.eqb_eq. intuition.
Qed.

Lemma ConnectionSpec_eq_eq (a b : ConnectionSpec) :
  ConnectionSpec_eq a b = true <-> a = b.
Proof.
  rewrite ConnectionSpec_eq_iff. destruct a, b; simpl. split.
  - intros [-> ->]. reflexivity.
  - intros [= -> ->]. auto.
Qed.

(** C9.  The hash of a [ConnectionSpec] is [::qHash], under the seed, of the
    32-bit value [dcId | (flags << 20)]; where [dcId] is a 32-bit value and
    the flags fit the twelve bits left above bit 20, no wrap-around occurs.
    [operator==] holds exactly when both [dcId] and [flags] agree, and specs
    that compare equal have equal hashes. *)
Theorem qHash_ConnectionSpec (qHash_uint : Z -> Z -> Z)
    (key other : ConnectionSpec) (seed : Z) :
  qHash qHash_uint key seed
    = qHash_uint (wrap32 (Z.lor (dcId key) (Z.shiftl (flags key) 20))) seed
  /\ (is_u32 (dcId key) /\ 0 <= flags key < 2 ^ 12 ->
      qHash qHash_uint key seed
        = qHash_uint (Z.lor (dcId key) (Z.shiftl (flags key) 20)) seed)
  /\ (ConnectionSpec_eq key other = true
      <-> dcId key = dcId other /\ flags key = flags other)
  /\ (ConnectionSpec_eq key other = true ->
      qHash qHash_uint key seed = qHash qHash_uint other seed).
Proof.
  assert (Hgen : qHash qHash_uint key seed
    = qHash_uint (wrap32 (Z.lor (dcId key) (Z.shiftl (flags key) 20))) seed).
  { unfold qHash. f_equal.
    rewrite !wrap32_lor, wrap32_idem, wrap32_shiftl by lia. reflexivity. }
  split; [exact Hgen |]. split; [| split].
  - intros [Hd Hf]. rewrite Hgen. f_equal. apply wrap32_small.
    apply lor_u32; [exact Hd |]. apply shiftl_u32_bound; lia.
  - apply ConnectionSpec_eq_iff.
  - intros Heq. apply ConnectionSpec_eq_eq in Heq. subst other. reflexivity.
Qed.

End DcConfigurationFacts.

(** ** Client data store *)

Module ClientFacts.
Import Client.

(** Assigning through the stored pointer of a present key is an insertion. *)
Lemma alter_const_present {V} (h : gmap Z V) (k : Z) (x : V) :
  is_Some (h !! k) -> alter (fun _ => x) k h = <[k := x]> h.
Proof.
  intros [v Hv]. apply map_eq. intros j.
  rewrite lookup_alter, lookup_insert.
  case_decide; subst; [rewrite Hv |]; reflexivity.
Qed.

(** Insert a default object if the key is missing, then assign through the
    pointer: the pattern of [processData(const TLMessage &)]. *)
Lemma ensure_then_assign {V} (h : gmap Z V) (k : Z) (d x : V) :
  alter (fun _ => x) k (if negb (contains h k) then <[k := d]> h else h)
  = <[k := x]> h.
Proof.
  unfold contains. destruct (h !! k) as [v |] eqn:Hk; simpl.
  - apply alter_const_present. rewrite Hk. eauto.
  - rewrite alter_const_present by (rewrite lookup_insert_eq; eauto).
    apply insert_insert_eq.
Qed.

Section Ingest.
Context `{TLConstants}.

Lemma processData_TLUser_state (user : TLUser.t) (s : DataInternalApi) :
  fst (processData_TLUser user s)
  = mkApi (if TLUser.self user then TLUser.id user else m_selfUserId s)
          (<[TLUser.id user := user]> (m_users s))
          (m_chats s) (m_clientMessages s) (m_channelMessages s)
          (m_dialogs s) (m_contactList s).
Proof.
  unfold processData_TLUser.
  destruct (m_users s !! TLUser.id user) as [old |] eqn:Hold.
  - rewrite alter_const_present by (rewrite Hold; eauto).
    destruct (TLUser.self user); reflexivity.
  - destruct (TLUser.self user); reflexivity.
Qed.

Lemma processData_TLChat_state (chat : TLChat.t) (s : DataInternalApi) :
  fst (processData_TLChat chat s)
  = set_m_chats (<[TLChat.id chat := chat]> (m_chats s)) s.
Proof.
  unfold processData_TLChat, contains.
  destruct (m_chats s !! TLChat.id chat) as [old |] eqn:Hold; simpl.
  - rewrite alter_const_present by (rewrite Hold; eauto). reflexivity.
  - reflexivity.
Qed.

(** The key under which a message is stored, and the map it is stored in. *)
Lemma processData_TLMessage_state (message : TLMessage.t) (s : DataInternalApi) :
  fst (processData_TLMessage message s)
  = if decide (TLPeer.tlType (TLMessage.toId message) = TLValue.PeerChannel)
    then set_m_channelMessages
           (<[channelMessageToKey (TLPeer.channelId (TLMessage.toId message))
                                  (TLMessage.id message) := message]>
              (m_channelMessages s)) s
    else set_m_clientMessages
           (<[TLMessage.id message := message]> (m_clientMessages s)) s.
Proof.
  unfold processData_TLMessage.
  case_decide; simpl; rewrite ensure_then_assign; reflexivity.
Qed.

(** C7.  Ingesting a user, a chat or a message is an idempotent upsert: the
    object is stored under its key whether or not the key was there, a second
    ingestion of the same object leaves the store as the first left it, and
    every other key and every other index keeps what it had. *)
Theorem processData_upsert (s : DataInternalApi)
    (user : TLUser.t) (chat : TLChat.t) (message : TLMessage.t) :
  (let s1 := fst (processData_TLUser user s) in
   m_users s1 !! TLUser.id user = Some user
   /\ fst (processData_TLUser user s1) = s1
   /\ (forall k, k <> TLUser.id user -> m_users s1 !! k = m_users s !! k)
   /\ m_chats s1 = m_chats s
   /\ m_clientMessages s1 = m_clientMessages s
   /\ m_channelMessages s1 = m_channelMessages s)
  /\
  (let s1 := fst (processData_TLChat chat s) in
   m_chats s1 !! TLChat.id chat = Some chat
   /\ fst (processData_TLChat chat s1) = s1
   /\ (forall k, k <> TLChat.id chat -> m_chats s1 !! k = m_chats s !! k)
   /\ m_users s1 = m_users s
   /\ m_selfUserId s1 = m_selfUserId s
   /\ m_clientMessages s1 = m_clientMessages s
   /\ m_channelMessages s1 = m_channelMessages s)
  /\
  (let s1 := fst (processData_TLMessage message s) in
   let channelKey :=
     channelMessageToKey (TLPeer.channelId (TLMessage.toId message))
                         (TLMessage.id message) in
   fst (processData_TLMessage message s1) = s1
   /\ m_users s1 = m_users s
   /\ m_selfUserId s1 = m_selfUserId s
   /\ m_chats s1 = m_chats s
   /\ (TLPeer.tlType (TLMessage.toId message) = TLValue.PeerChannel ->
       m_channelMessages s1 !! channelKey = Some message
       /\ (forall k, k <> channelKey ->
             m_channelMessages s1 !! k = m_channelMessages s !! k)
       /\ m_clientMessages s1 = m_clientMessages s)
   /\ (TLPeer.tlType (TLMessage.toId message) <> TLValue.PeerChannel ->
       m_clientMessages s1 !! TLMessage.id message = Some message
       /\ (forall k, k <> TLMessage.id message ->
             m_clientMessages s1 !! k = m_clientMessages s !! k)
       /\ m_channelMessages s1 = m_channelMessages s)).
Proof.
  split; [| split].
  - cbv zeta. rewrite !processData_TLUser_state. cbn [m_users m_chats
      m_clientMessages m_channelMessages m_selfUserId m_dialogs m_contactList].
    rewrite insert_insert_eq, lookup_insert_eq.
    repeat split; try reflexivity.
    + destruct (TLUser.self user); reflexivity.
    + intros k Hk. apply lookup_insert_ne. congruence.
  - cbv zeta. rewrite !processData_TLChat_state. unfold set_m_chats.
    cbn [m_users m_chats m_clientMessages m_channelMessages m_selfUserId
         m_dialogs m_contactList].
    rewrite insert_insert_eq, lookup_insert_eq.
    repeat split; try reflexivity.
    intros k Hk. apply lookup_insert_ne. congruence.
  - cbv zeta. rewrite !processData_TLMessage_state.
    unfold set_m_channelMessages, set_m_clientMessages.
    case_decide as Hch;
      cbn [m_users m_chats m_clientMessages m_channelMessages m_selfUserId
           m_dialogs m_contactList];
      rewrite insert_insert_eq;
      repeat split; try reflexivity; try (intros; contradiction).
    + apply lookup_insert_eq.
    + intros k Hk. apply lookup_insert_ne. congruence.
    + apply lookup_insert_eq.
    + intros k Hk. apply lookup_insert_ne. congruence.
Qed.

End Ingest.

(** *** Self user *)

Section SelfUser.
Context `{TLConstants}.

(** C6.  After a user record with the self flag is ingested, the stored self
    user id is the id of that record and the record itself is stored; a
    warning is written exactly when another, non-zero self user id was stored
    before. *)
Theorem processData_self_user (s : DataInternalApi) (user : TLUser.t) :
  TLUser.self user = true ->
  m_selfUserId (fst (processData_TLUser user s)) = TLUser.id user
  /\ m_users (fst (processData_TLUser user s)) !! TLUser.id user = Some user
  /\ (m_selfUserId s <> 0 /\ m_selfUserId s <> TLUser.id user ->
      snd (processData_TLUser user s)
      = [qWarning [LStr "Got self user with different id."]])
  /\ (m_selfUserId s = 0 \/ m_selfUserId s = TLUser.id user ->
      snd (processData_TLUser user s) = []).
Proof.
  intros Hself. rewrite processData_TLUser_state, Hself.
  cbn [m_selfUserId m_users]. rewrite lookup_insert_eq.
  split; [reflexivity |]. split; [reflexivity |].
  unfold processData_TLUser. rewrite Hself.
  destruct (m_users s !! TLUser.id user); cbn [snd set_m_users m_selfUserId];
    unfold truthy; split.
  all: try (intros [Hnz Hne];
            apply Z.eqb_neq in Hnz; apply Z.eqb_neq in Hne;
            rewrite Hnz, Hne; reflexivity).
  all: intros [Hz | He];
    [ rewrite Hz; reflexivity
    | rewrite He, Z.eqb_refl, andb_false_r; reflexivity ].
Qed.

End SelfUser.

(** The sample store has self user id 5; ingesting the self user with id 8
    moves it to 8 and writes the warning. *)
Lemma processData_self_user_witness :
  m_selfUserId
    (fst (processData_TLUser (H := Sample.constants)
            Sample.secondSelfUser Sample.store)) = 8
  /\ snd (processData_TLUser (H := Sample.constants)
            Sample.secondSelfUser Sample.store)
     = [qWarning [LStr "Got self user with different id."]].
Proof.
  pose proof (processData_self_user (H := Sample.constants) Sample.store
                Sample.secondSelfUser eq_refl) as (Hid & _ & Hwarn & _).
  split; [exact Hid |].
  apply Hwarn. split; discriminate.
Defined.

(** *** Message keys *)

Lemma shiftl32_u64 (c : Z) : is_u32 c -> is_u64 (Z.shiftl c 32).
Proof.
  unfold is_u32, is_u64. intros Hc. rewrite Z.shiftl_mul_pow2 by lia.
  change (2 ^ 64) with (2 ^ 32 * 2 ^ 32). nia.
Qed.

Lemma land_shiftl32_low (c m : Z) :
  is_u32 m -> Z.land (Z.shiftl c 32) m = 0.
Proof.
  intros Hm. apply Z.bits_inj'. intros n Hn.
  rewrite Z.land_spec, Z.bits_0.
  destruct (Z.lt_ge_cases n 32) as [Hlt | Hge].
  - rewrite Z.shiftl_spec_low by lia. reflexivity.
  - rewrite <- (Z.mod_small m (2 ^ 32)) by exact Hm.
    rewrite Z.mod_pow2_bits_high by lia. apply andb_false_r.
Qed.

Lemma channelMessageToKey_sum (c m : Z) :
  is_u32 c -> is_u32 m -> channelMessageToKey c m = c * 2 ^ 32 + m.
Proof.
  intros Hc Hm. unfold channelMessageToKey, wrap64.
  pose proof (shiftl32_u64 c Hc) as Hs. unfold is_u64 in Hs.
  rewrite (Z.mod_small (Z.shiftl c 32)) by exact Hs.
  rewrite Z.shiftl_mul_pow2 in * by lia.
  apply Z.mod_small. unfold is_u32 in *.
  change (2 ^ 64) with (2 ^ 32 * 2 ^ 32). nia.
Qed.

Lemma channelMessageToKey_lor (c m : Z) :
  is_u32 c -> is_u32 m ->
  channelMessageToKey c m = Z.lor (Z.shiftl c 32) m.
Proof.
  intros Hc Hm. rewrite channelMessageToKey_sum by assumption.
  rewrite <- Z.shiftl_mul_pow2 by lia.
  rewrite <- Z.add_lor_land, land_shiftl32_low by exact Hm. lia.
Qed.

Lemma channelMessageToKey_inj (c m c' m' : Z) :
  is_u32 c -> is_u32 m -> is_u32 c' -> is_u32 m' ->
  channelMessageToKey c' m' = channelMessageToKey c m -> c' = c /\ m' = m.
Proof.
  intros Hc Hm Hc' Hm'. rewrite !channelMessageToKey_sum by assumption.
  unfold is_u32 in *. lia.
Qed.

Section MessageKeys.
Context `{TLConstants}.

(** What [getMessage] does is decided by the stored message it finds. *)
Lemma getMessage_ext (d d' : DataStorage) (out : Message.t) (peer : Peer.t)
    (messageId : Z) :
  lookupMessage d' peer messageId = lookupMessage d peer messageId ->
  getMessage d' out peer messageId = getMessage d out peer messageId.
Proof. intros Heq. unfold getMessage. rewrite Heq. reflexivity. Qed.

Lemma lookupMessage_after_channel_message (d : DataStorage)
    (message : TLMessage.t) (peer : Peer.t) (messageId : Z) :
  TLPeer.tlType (TLMessage.toId message) = TLValue.PeerChannel ->
  Peer.type peer <> Peer.Channel ->
  lookupMessage (viaInternalApi (processData_TLMessage message) d)
                peer messageId
  = lookupMessage d peer messageId.
Proof.
  intros Hch Hpeer. unfold lookupMessage, viaInternalApi. cbn [m_api].
  rewrite processData_TLMessage_state.
  destruct (decide (Peer.type peer = Peer.Channel)); [contradiction |].
  destruct (decide (TLPeer.tlType (TLMessage.toId message)
                    = TLValue.PeerChannel)); [reflexivity | contradiction].
Qed.

Lemma lookupMessage_after_plain_message (d : DataStorage)
    (message : TLMessage.t) (peer : Peer.t) (messageId : Z) :
  TLPeer.tlType (TLMessage.toId message) <> TLValue.PeerChannel ->
  Peer.type peer = Peer.Channel ->
  lookupMessage (viaInternalApi (processData_TLMessage message) d)
                peer messageId
  = lookupMessage d peer messageId.
Proof.
  intros Hch Hpeer. unfold lookupMessage, viaInternalApi. cbn [m_api].
  rewrite processData_TLMessage_state.
  destruct (decide (Peer.type peer = Peer.Channel)); [| contradiction].
  destruct (decide (TLPeer.tlType (TLMessage.toId message)
                    = TLValue.PeerChannel)); [contradiction | reflexivity].
Qed.

Lemma lookupMessage_stored (d : DataStorage) (message : TLMessage.t) :
  lookupMessage (viaInternalApi (processData_TLMessage message) d)
    (if decide (TLPeer.tlType (TLMessage.toId message) = TLValue.PeerChannel)
     then Peer.mk Peer.Channel (TLPeer.channelId (TLMessage.toId message))
     else Peer.mk Peer.Chat (TLPeer.chatId (TLMessage.toId message)))
    (TLMessage.id message)
  = Some message.
Proof.
  unfold lookupMessage, viaInternalApi. cbn [m_api].
  rewrite processData_TLMessage_state.
  destruct (decide (TLPeer.tlType (TLMessage.toId message)
                    = TLValue.PeerChannel)) as [Hch | Hch];
    cbn [Peer.type Peer.id].
  - rewrite decide_True by reflexivity. apply lookup_insert_eq.
  - rewrite decide_False by discriminate. apply lookup_insert_eq.
Qed.

(** Where [getMessage] looks: by the kind of the peer. *)
Lemma lookupMessage_channel (d : DataStorage) (peer : Peer.t) (messageId : Z) :
  Peer.type peer = Peer.Channel ->
  lookupMessage d peer messageId
  = m_channelMessages (m_api d)
      !! channelMessageToKey (Peer.id peer) messageId.
Proof.
  intros Hpeer. unfold lookupMessage.
  rewrite decide_True by exact Hpeer. reflexivity.
Qed.

Lemma lookupMessage_plain (d : DataStorage) (peer : Peer.t) (messageId : Z) :
  Peer.type peer <> Peer.Channel ->
  lookupMessage d peer messageId = m_clientMessages (m_api d) !! messageId.
Proof.
  intros Hpeer. unfold lookupMessage.
  rewrite decide_False by exact Hpeer. reflexivity.
Qed.

(** What [getMessage] returns once the stored message is found, or not. *)
Lemma getMessage_hit (d : DataStorage) (out : Message.t) (peer : Peer.t)
    (messageId : Z) (m : TLMessage.t) :
  lookupMessage d peer messageId = Some m ->
  exists out',
    getMessage d out peer messageId = (true, out', [])
    /\ Message.type out' = MessageTypeText
    /\ Message.fromId out' = TLMessage.fromId m
    /\ Message.timestamp out' = TLMessage.date m
    /\ Message.text out' = TLMessage.message m
    /\ Message.flags out'
       = Z.lor
           (if TLMessage.out m
            then Z.lor MessageFlagNone MessageFlagOut
            else MessageFlagNone)
           (if truthy (Z.land (TLMessage.flags m) TLMessage_FwdFrom)
            then MessageFlagForwarded else 0).
Proof.
  intros Hm. unfold getMessage. rewrite Hm.
  eexists. split; [reflexivity |].
  destruct (TLMessage.out m);
    destruct (truthy (Z.land (TLMessage.flags m) TLMessage_FwdFrom));
    try destruct (truthy (Z.land (TLMessageFwdHeader.flags
                                    (TLMessage.fwdFrom m))
                                 TLMessageFwdHeader_FromId));
    cbn; rewrite ?Z.lor_0_r; repeat split; reflexivity.
Qed.

Lemma getMessage_miss (d : DataStorage) (out : Message.t) (peer : Peer.t)
    (messageId : Z) :
  lookupMessage d peer messageId = None ->
  getMessage d out peer messageId
  = (false, out,
     [qDebug [LStr "DataStorage::getMessage"; LStr "Unknown message";
              LPeer peer; LPointer]]).
Proof. intros Hm. unfold getMessage. rewrite Hm. reflexivity. Qed.

(** C5.  For 32-bit [c] and [m] the channel message key is [(c << 32) | m],
    a 64-bit value that determines both [c] and [m].  [getMessage] through
    the channel peer [c] returns the message that the channel index holds
    under that key, and fails when the index holds none there; through any
    other peer it returns the message that the plain index holds under the
    bare id [m], and fails when there is none.  [processData] stores under
    the same keys, so an ingested message is returned by [getMessage]
    through a peer of its kind.  The two indices are separate maps: a
    channel message that is ingested changes no [getMessage] through a
    non-channel peer, and a plain message changes none through a channel
    peer. *)
Theorem channelMessageToKey_namespace (c m : Z) :
  is_u32 c -> is_u32 m ->
  channelMessageToKey c m = Z.lor (Z.shiftl c 32) m
  /\ is_u64 (channelMessageToKey c m)
  /\ (forall c' m', is_u32 c' -> is_u32 m' ->
        channelMessageToKey c' m' = channelMessageToKey c m ->
        c' = c /\ m' = m)
  /\ (forall d out message,
        m_channelMessages (m_api d) !! channelMessageToKey c m
        = Some message ->
        exists out',
          getMessage d out (Peer.mk Peer.Channel c) m = (true, out', [])
          /\ Message.fromId out' = TLMessage.fromId message
          /\ Message.timestamp out' = TLMessage.date message
          /\ Message.text out' = TLMessage.message message)
  /\ (forall d out,
        m_channelMessages (m_api d) !! channelMessageToKey c m = None ->
        fst (fst (getMessage d out (Peer.mk Peer.Channel c) m)) = false)
  /\ (forall d out peer message,
        Peer.type peer <> Peer.Channel ->
        m_clientMessages (m_api d) !! m = Some message ->
        exists out',
          getMessage d out peer m = (true, out', [])
          /\ Message.fromId out' = TLMessage.fromId message
          /\ Message.timestamp out' = TLMessage.date message
          /\ Message.text out' = TLMessage.message message)
  /\ (forall d out peer,
        Peer.type peer <> Peer.Channel ->
        m_clientMessages (m_api d) !! m = None ->
        fst (fst (getMessage d out peer m)) = false)
  /\ (forall d out message,
        TLPeer.tlType (TLMessage.toId message) = TLValue.PeerChannel ->
        TLPeer.channelId (TLMessage.toId message) = c ->
        TLMessage.id message = m ->
        exists out',
          getMessage (viaInternalApi (processData_TLMessage message) d)
                     out (Peer.mk Peer.Channel c) m
          = (true, out', [])
          /\ Message.fromId out' = TLMessage.fromId message
          /\ Message.timestamp out' = TLMessage.date message
          /\ Message.text out' = TLMessage.message message)
  /\ (forall d out peer message,
        TLPeer.tlType (TLMessage.toId message) <> TLValue.PeerChannel ->
        TLMessage.id message = m ->
        Peer.type peer <> Peer.Channel ->
        exists out',
          getMessage (viaInternalApi (processData_TLMessage message) d)
                     out peer m
          = (true, out', [])
          /\ Message.fromId out' = TLMessage.fromId message
          /\ Message.timestamp out' = TLMessage.date message
          /\ Message.text out' = TLMessage.message message)
  /\ (forall d message out peer messageId,
        TLPeer.tlType (TLMessage.toId message) = TLValue.PeerChannel ->
        Peer.type peer <> Peer.Channel ->
        getMessage (viaInternalApi (processData_TLMessage message) d)
                   out peer messageId
        = getMessage d out peer messageId)
  /\ (forall d message out peer messageId,
        TLPeer.tlType (TLMessage.toId message) <> TLValue.PeerChannel ->
        Peer.type peer = Peer.Channel ->
        getMessage (viaInternalApi (processData_TLMessage message) d)
                   out peer messageId
        = getMessage d out peer messageId).
Proof.
  intros Hc Hm.
  assert (Hfound : forall d out peer i message,
            lookupMessage d peer i = Some message ->
            exists out',
              getMessage d out peer i = (true, out', [])
              /\ Message.fromId out' = TLMessage.fromId message
              /\ Message.timestamp out' = TLMessage.date message
              /\ Message.text out' = TLMessage.message message).
  { intros d out peer i message Hlook.
    destruct (getMessage_hit d out peer i message Hlook)
      as (out' & Hget & _ & Hfrom & Hdate & Htext & _).
    exists out'. auto. }
  split_and!.
  - apply channelMessageToKey_lor; assumption.
  - rewrite channelMessageToKey_sum by assumption.
    unfold is_u32, is_u64 in *. change (2 ^ 64) with (2 ^ 32 * 2 ^ 32). nia.
  - intros c' m' Hc' Hm'. apply channelMessageToKey_inj; assumption.
  - intros d out message Hstored. apply Hfound.
    rewrite lookupMessage_channel by reflexivity. exact Hstored.
  - intros d out Hnone.
    rewrite getMessage_miss; [reflexivity |].
    rewrite lookupMessage_channel by reflexivity. exact Hnone.
  - intros d out peer message Hpeer Hstored. apply Hfound.
    rewrite lookupMessage_plain by exact Hpeer. exact Hstored.
  - intros d out peer Hpeer Hnone.
    rewrite getMessage_miss; [reflexivity |].
    rewrite lookupMessage_plain by exact Hpeer. exact Hnone.
  - intros d out message Hch <- <-. apply Hfound.
    pose proof (lookupMessage_stored d message) as Hstored.
    rewrite decide_True in Hstored by exact Hch. exact Hstored.
  - intros d out peer message Hch <- Hpeer. apply Hfound.
    pose proof (lookupMessage_stored d message) as Hstored.
    rewrite decide_False in Hstored by exact Hch.
    rewrite lookupMessage_plain in * by (exact Hpeer || discriminate).
    exact Hstored.
  - intros d message out peer messageId Hch Hpeer.
    apply getMessage_ext, lookupMessage_after_channel_message; assumption.
  - intros d message out peer messageId Hch Hpeer.
    apply getMessage_ext, lookupMessage_after_plain_message; assumption.
Qed.

End MessageKeys.

(** The sample storage holds a channel message and a plain message with the
    same message id 9: the channel peer 3 gets the first, a user peer the
    second. *)
Lemma channelMessageToKey_namespace_witness :
  channelMessageToKey 3 9 = Z.lor (Z.shiftl 3 32) 9
  /\ (exists out',
        getMessage (H := Sample.constants) Sample.storageWithMessages
                   Sample.emptyMessage (Peer.mk Peer.Channel 3) 9
        = (true, out', [])
        /\ Message.text out' = "in channel")
  /\ (exists out',
        getMessage (H := Sample.constants) Sample.storageWithMessages
                   Sample.emptyMessage (Peer.mk Peer.User 6) 9
        = (true, out', [])
        /\ Message.text out' = "in chat").
Proof.
  assert (Hc : is_u32 3) by (unfold is_u32; lia).
  assert (Hm : is_u32 9) by (unfold is_u32; lia).
  destruct (channelMessageToKey_namespace (H := Sample.constants) 3 9 Hc Hm)
    as (Hkey & _ & _ & Hchannel & _ & Hplain & _).
  split; [exact Hkey |]. split.
  - destruct (Hchannel Sample.storageWithMessages Sample.emptyMessage
                Sample.channelPost eq_refl)
      as (out' & Hget & _ & _ & Htext).
    exists out'. split; [exact Hget | exact Htext].
  - destruct (Hplain Sample.storageWithMessages Sample.emptyMessage
                (Peer.mk Peer.User 6) Sample.plainPost
                ltac:(discriminate) eq_refl)
      as (out' & Hget & _ & _ & Htext).
    exists out'. split; [exact Hget | exact Htext].
Defined.

(** *** Lookups *)

Section Lookups.
Context `{TLConstants}.
Variable toPublicPeer : TLPeer.t -> Peer.t.

Lemma findDialog_None (dialogs : list TLDialog.t) (peer : Peer.t) :
  findDialog toPublicPeer dialogs peer = None
  <-> Forall (fun dialog => toPublicPeer (TLDialog.peer dialog) <> peer)
             dialogs.
Proof.
  induction dialogs as [| dialog rest IH]; simpl.
  - split; [constructor | reflexivity].
  - case_decide as Heq.
    + split; [discriminate |]. intros Hall.
      apply Forall_cons in Hall as [Hne _]. contradiction.
    + rewrite IH. split.
      * intros Hall. constructor; assumption.
      * intros Hall. apply Forall_cons in Hall as [_ Hall]. exact Hall.
Qed.

Lemma findDialog_Some (dialogs : list TLDialog.t) (peer : Peer.t)
    (found : TLDialog.t) :
  findDialog toPublicPeer dialogs peer = Some found ->
  found ∈ dialogs /\ toPublicPeer (TLDialog.peer found) = peer.
Proof.
  induction dialogs as [| dialog rest IH]; simpl; [discriminate |].
  case_decide as Heq.
  - intros [= <-]. split; [left | exact Heq].
  - intros Hfound. destruct (IH Hfound) as [Hin Hpeer].
    split; [right; exact Hin | exact Hpeer].
Qed.


End Lookups.


(** *** Forwarded messages *)

Lemma land_lor_same (x f : Z) : Z.land (Z.lor x f) f = f.
Proof.
  apply Z.bits_inj'. intros n Hn. rewrite Z.land_spec, Z.lor_spec.
  destruct (Z.testbit x n), (Z.testbit f n); reflexivity.
Qed.

Section Forwarded.
Context `{TLConstants}.

(** C10.  For a stored message whose [FwdFrom] flag is set, [getMessage]
    returns [true] with the forwarded flag set in the flags of the result; the
    type, sender, date, text and the outgoing flag are written from the stored
    message; the peer the message was forwarded from is whatever the
    out-parameter held before the call, whether or not the forward header has
    its [FromId] flag set. *)
Theorem getMessage_forwarded (d : DataStorage) (message : Message.t)
    (peer : Peer.t) (messageId : Z) (m : TLMessage.t) :
  lookupMessage d peer messageId = Some m ->
  truthy (Z.land (TLMessage.flags m) TLMessage_FwdFrom) = true ->
  exists out,
    getMessage d message peer messageId = (true, out, [])
    /\ Z.land (Message.flags out) MessageFlagForwarded = MessageFlagForwarded
    /\ Message.forwardFromPeer out = Message.forwardFromPeer message
    /\ Message.type out = MessageTypeText
    /\ Message.fromId out = TLMessage.fromId m
    /\ Message.timestamp out = TLMessage.date m
    /\ Message.text out = TLMessage.message m
    /\ Message.flags out
       = Z.lor (if TLMessage.out m
                then Z.lor MessageFlagNone MessageFlagOut
                else MessageFlagNone)
               MessageFlagForwarded
    /\ Message.id out = Message.id message
    /\ Message.fwdTimestamp out = Message.fwdTimestamp message
    /\ Message.m_peer out = Message.m_peer message.
Proof.
  intros Hm Hfwd. unfold getMessage. rewrite Hm, Hfwd.
  eexists. split; [reflexivity |].
  destruct (TLMessage.out m);
    destruct (truthy (Z.land (TLMessageFwdHeader.flags (TLMessage.fwdFrom m))
                             TLMessageFwdHeader_FromId));
    cbn; rewrite land_lor_same; repeat split; reflexivity.
Qed.

End Forwarded.

(** The sample storage holds message 10, outgoing and forwarded, whose
    forward header names a sender; the result has no forward origin. *)
Lemma getMessage_forwarded_witness :
  exists out,
    getMessage (H := Sample.constants) Sample.storage Sample.emptyMessage
               (Peer.mk Peer.User 6) 10 = (true, out, [])
    /\ Message.flags out = 6
    /\ Message.forwardFromPeer out = Peer.mk Peer.User 0.
Proof.
  destruct (getMessage_forwarded (H := Sample.constants) Sample.storage
              Sample.emptyMessage (Peer.mk Peer.User 6) 10 Sample.forwarded
              eq_refl eq_refl)
    as (out & Hget & _ & Horigin & _ & _ & _ & _ & Hflags & _).
  exists out. split; [exact Hget |]. split; [exact Hflags | exact Horigin].
Defined.

(** *** Resolving peers *)

(** C4, as the code has it.  [toInputPeer] returns the self shortcut exactly
    for a user peer whose id is the stored self user id.  A chat peer becomes
    [InputPeerChat]; a channel peer and a user peer other than the self user
    carry the access hash stored under their id, when the id is stored, and
    give the empty input peer with a warning when it is not.  The peer that a
    result stands for resolves to the same result again. *)
Theorem toInputPeer_resolution (s : DataInternalApi) (p : Peer.t) :
  (TLInputPeer.tlType (fst (toInputPeer s p)) = TLValue.InputPeerSelf
   <-> Peer.type p = Peer.User /\ Peer.id p = m_selfUserId s)
  /\ (Peer.type p = Peer.Chat ->
      toInputPeer s p
      = (TLInputPeer.mk TLValue.InputPeerChat (Peer.id p) 0 0 0, []))
  /\ (forall chat,
        Peer.type p = Peer.Channel -> m_chats s !! Peer.id p = Some chat ->
        toInputPeer s p
        = (TLInputPeer.mk TLValue.InputPeerChannel 0 0
                          (TLChat.accessHash chat) (Peer.id p), []))
  /\ (forall user,
        Peer.type p = Peer.User -> Peer.id p <> m_selfUserId s ->
        m_users s !! Peer.id p = Some user ->
        toInputPeer s p
        = (TLInputPeer.mk TLValue.InputPeerUser 0 (Peer.id p)
                          (TLUser.accessHash user) 0, []))
  /\ (Peer.type p = Peer.Channel -> m_chats s !! Peer.id p = None ->
      fst (toInputPeer s p) = TLInputPeer.default
      /\ exists line, snd (toInputPeer s p) = [line]
                      /\ log_level line = QtWarningMsg)
  /\ (Peer.type p = Peer.User -> Peer.id p <> m_selfUserId s ->
      m_users s !! Peer.id p = None ->
      fst (toInputPeer s p) = TLInputPeer.default
      /\ exists line, snd (toInputPeer s p) = [line]
                      /\ log_level line = QtWarningMsg)
  /\ (forall p',
        denotedPeer (m_selfUserId s) (fst (toInputPeer s p)) = Some p' ->
        toInputPeer s p' = toInputPeer s p).
Proof.
  destruct p as [ty i]. unfold toInputPeer. cbn [Peer.type Peer.id].
  split_and!.
  - destruct ty; cbn.
    + destruct (Z.eqb_spec i (m_selfUserId s)) as [-> | Hne]; cbn.
      * tauto.
      * destruct (m_users s !! i); cbn; split;
          try discriminate; intros [_ ?]; contradiction.
    + split; [discriminate | intros [? _]; discriminate].
    + destruct (m_chats s !! i); cbn; split;
        try discriminate; intros [? _]; discriminate.
    + split; [discriminate | intros [? _]; discriminate].
  - intros ->. reflexivity.
  - intros chat -> ->. reflexivity.
  - intros user -> Hne ->. apply Z.eqb_neq in Hne. rewrite Hne. reflexivity.
  - intros -> ->. split; [reflexivity |]. eexists. split; reflexivity.
  - intros -> Hne ->. apply Z.eqb_neq in Hne. rewrite Hne.
    split; [reflexivity |]. eexists. split; reflexivity.
  - intros p'. destruct ty; cbn.
    + destruct (Z.eqb_spec i (m_selfUserId s)) as [-> | Hne]; cbn.
      * intros [= <-]. cbn. rewrite Z.eqb_refl. reflexivity.
      * destruct (m_users s !! i) as [user |] eqn:Hu; cbn;
          [| discriminate].
        intros [= <-]. cbn. apply Z.eqb_neq in Hne. rewrite Hne, Hu.
        reflexivity.
    + intros [= <-]. reflexivity.
    + destruct (m_chats s !! i) as [chat |] eqn:Hc; cbn; [| discriminate].
      intros [= <-]. cbn. rewrite Hc. reflexivity.
    + discriminate.
Qed.

(** With self user id 5, the chat peer with id 5 has the id of the self user
    and still resolves to [InputPeerChat]. *)
Lemma toInputPeer_chat_with_self_id :
  ~ (TLInputPeer.tlType
       (fst (toInputPeer Sample.store (Peer.mk Peer.Chat 5)))
     = TLValue.InputPeerSelf
     <-> Peer.id (Peer.mk Peer.Chat 5) = m_selfUserId Sample.store).
Proof.
  intros [_ Hself]. specialize (Hself eq_refl). discriminate Hself.
Qed.

End ClientFacts.

(** ** Server *)

Module ServerFacts.
Import Server.

Lemma errorPackage_bytes : errorPackage = [0x6c; 0xfe; 0xff; 0xff].
Proof. reflexivity. Qed.

Lemma rejectAuthKey_spec (c : RemoteClientConnection) :
  fst (rejectAuthKey c) = false
  /\ m_status (snd (rejectAuthKey c)) = Status_Failed
  /\ m_statusReason (snd (rejectAuthKey c)) = StatusReason_Local
  /\ m_sendHelper (snd (rejectAuthKey c)) = m_sendHelper c
  /\ sentPackets (m_transport (snd (rejectAuthKey c)))
     = sentPackets (m_transport c) ++ [errorPackage]
  /\ packetReceived (m_transport (snd (rejectAuthKey c)))
     = filter (fun s => s <> Slot_onTransportPacketReceived)
              (packetReceived (m_transport c)) ++ [Slot_sendKeyError].
Proof. repeat split; reflexivity. Qed.

Lemma rejectAuthKey_stops_normal_processing (c : RemoteClientConnection) :
  ~ handlesPacketsNormally (snd (rejectAuthKey c))
  /\ Slot_sendKeyError ∈ packetReceived (m_transport (snd (rejectAuthKey c))).
Proof.
  unfold handlesPacketsNormally.
  destruct (rejectAuthKey_spec c) as (_ & _ & _ & _ & _ & ->).
  rewrite !elem_of_app, list_elem_of_filter, !list_elem_of_singleton. split.
  - intros [[Hne _] | Heq]; [apply Hne; reflexivity | discriminate Heq].
  - right. reflexivity.
Qed.

Section Connection.
Context `{ServerApi}.
Variable authKeyIdOf : QByteArray -> Z.

Lemma isEmpty_true (b : QByteArray) : isEmpty b = true <-> b = [].
Proof. destruct b; simpl; split; congruence. Qed.

(** The three ways through [processAuthKey]. *)
Lemma processAuthKey_cases (c : RemoteClientConnection) (authKeyId : Z) :
  (authKeyId = authId (m_sendHelper c)
   /\ fst (processAuthKey authKeyIdOf c authKeyId) = (true, c))
  \/ (authKeyId <> authId (m_sendHelper c)
      /\ authId (m_sendHelper c) = 0
      /\ getAuthKeyById authKeyId <> []
      /\ fst (processAuthKey authKeyIdOf c authKeyId)
         = (true,
            set_m_sendHelper
              (setAuthKey authKeyIdOf (getAuthKeyById authKeyId)
                          (m_sendHelper c)) c))
  \/ (authKeyId <> authId (m_sendHelper c)
      /\ (authId (m_sendHelper c) <> 0 \/ getAuthKeyById authKeyId = [])
      /\ fst (processAuthKey authKeyIdOf c authKeyId) = rejectAuthKey c).
Proof.
  unfold processAuthKey.
  destruct (Z.eqb_spec authKeyId (authId (m_sendHelper c))) as [Heq | Hne].
  { left. split; [exact Heq | reflexivity]. }
  right. unfold truthy.
  destruct (Z.eqb_spec (authId (m_sendHelper c)) 0) as [Hz | Hnz]; cbn [negb].
  - destruct (isEmpty (getAuthKeyById authKeyId)) eqn:Hempty.
    + right. apply isEmpty_true in Hempty. auto.
    + left. split_and!; [exact Hne | exact Hz | | reflexivity].
      intros Hnil. apply isEmpty_true in Hnil. congruence.
  - right. auto.
Qed.

End Connection.

Lemma rejectAuthKey_refused (c : RemoteClientConnection) :
  refused c (rejectAuthKey c).
Proof.
  destruct (rejectAuthKey_spec c) as (Hres & Hst & _ & Hkey & Hsent & _).
  destruct (rejectAuthKey_stops_normal_processing c) as [Hnormal Herr].
  unfold refused. rewrite <- errorPackage_bytes. auto 10.
Qed.

Section AuthKey.
Context `{ServerApi}.
Variable authKeyIdOf : QByteArray -> Z.

(** Both kinds of connection, for an auth key id that is not zero and is not
    the id bound on the send helper: a connection whose helper has no key
    (id zero) looks the key up in the server API, binds it and returns [true]
    when there is one, and refuses with the key error frame when there is
    none; a connection whose helper already holds another key refuses
    without consulting the server API. *)
Theorem processAuthKey_lookup (c : RemoteClientConnection) (authKeyId : Z) :
  authKeyId <> 0 ->
  authKeyId <> authId (m_sendHelper c) ->
  (authId (m_sendHelper c) = 0 ->
   getAuthKeyById authKeyId <> [] ->
   fst (processAuthKey authKeyIdOf c authKeyId)
   = (true,
      set_m_sendHelper
        (mkSendHelper (getAuthKeyById authKeyId)
                      (authKeyIdOf (getAuthKeyById authKeyId))) c))
  /\ (authId (m_sendHelper c) = 0 ->
      getAuthKeyById authKeyId = [] ->
      refused c (fst (processAuthKey authKeyIdOf c authKeyId)))
  /\ (authId (m_sendHelper c) <> 0 ->
      refused c (fst (processAuthKey authKeyIdOf c authKeyId))
      /\ forall (otherApi : ServerApi) (otherIdOf : QByteArray -> Z),
           processAuthKey (H := otherApi) otherIdOf c authKeyId
           = processAuthKey authKeyIdOf c authKeyId).
Proof.
  intros _ Hne.
  destruct (processAuthKey_cases authKeyIdOf c authKeyId)
    as [[Heq _] | [(_ & Hz & Hkey & Hres) | (_ & Hwhy & Hres)]];
    [contradiction | |].
  - split_and!.
    + intros _ _. exact Hres.
    + intros _ Hnil. contradiction.
    + intros Hnz. contradiction.
  - split_and!.
    + intros Hz Hkey. destruct Hwhy; contradiction.
    + intros _ _. rewrite Hres. apply rejectAuthKey_refused.
    + intros Hnz. split; [rewrite Hres; apply rejectAuthKey_refused |].
      intros otherApi otherIdOf. unfold processAuthKey.
      apply Z.eqb_neq in Hne. rewrite Hne.
      unfold truthy. apply Z.eqb_neq in Hnz. rewrite Hnz. reflexivity.
Qed.

(** C1.  The first packet of a connection meets the send helper as the
    constructor made it, with no key bound: its id is zero.  For a non-zero
    auth key id, which then differs from the bound id, [processAuthKey]
    decides by the lookup in the server API alone.  If the API has a key for
    the id, the key is bound to the helper and the result is [true]; nothing
    is sent and the status is as it was.  If the API has none, the key error
    frame is sent, the connection is marked failed and the result is
    [false].  So the frame, the failure and the [false] occur exactly when
    the lookup yields no key. *)
Theorem processAuthKey_first_packet (c : RemoteClientConnection)
    (authKeyId : Z) :
  authId (m_sendHelper c) = 0 ->
  authKeyId <> 0 ->
  authKeyId <> authId (m_sendHelper c) ->
  let outcome := fst (processAuthKey authKeyIdOf c authKeyId) in
  (getAuthKeyById authKeyId <> [] ->
   outcome
   = (true,
      set_m_sendHelper
        (mkSendHelper (getAuthKeyById authKeyId)
                      (authKeyIdOf (getAuthKeyById authKeyId))) c)
   /\ m_authKey (m_sendHelper (snd outcome)) = getAuthKeyById authKeyId
   /\ m_transport (snd outcome) = m_transport c
   /\ m_status (snd outcome) = m_status c)
  /\ (getAuthKeyById authKeyId = [] -> refused c outcome)
  /\ (fst outcome = false <-> getAuthKeyById authKeyId = [])
  /\ (sentPackets (m_transport (snd outcome)) <> sentPackets (m_transport c)
      <-> getAuthKeyById authKeyId = [])
  /\ (m_status c <> Status_Failed ->
      (m_status (snd outcome) = Status_Failed
       <-> getAuthKeyById authKeyId = [])).
Proof.
  intros Hunbound _ Hne. cbv zeta.
  destruct (processAuthKey_cases authKeyIdOf c authKeyId)
    as [[Heq _] | [(_ & _ & Hkey & Hres) | (_ & Hwhy & Hres)]];
    [contradiction | |]; rewrite Hres.
  - cbn [fst snd set_m_sendHelper setAuthKey m_sendHelper m_transport
         m_status m_authKey].
    split_and!.
    + intros _. auto.
    + intros Hnil. contradiction.
    + split; [discriminate | intros Hnil; contradiction].
    + split; [intros Hchanged; destruct Hchanged; reflexivity
             | intros Hnil; contradiction].
    + intros Hstatus. split; [intros Hfailed; contradiction
                             | intros Hnil; contradiction].
  - destruct Hwhy as [Hbound | Hnil]; [contradiction |].
    pose proof (rejectAuthKey_refused c) as Hrefused.
    destruct (rejectAuthKey_spec c) as (Hfalse & Hfailed & _ & _ & Hsent & _).
    split_and!.
    + intros Hkey. contradiction.
    + intros _. exact Hrefused.
    + split; [intros _; exact Hnil | intros _; exact Hfalse].
    + split; [intros _; exact Hnil |].
      intros _. rewrite Hsent. intros Hsame.
      apply (f_equal length) in Hsame. rewrite length_app in Hsame.
      cbn [length] in Hsame. lia.
    + intros _. split; [intros _; exact Hnil | intros _; exact Hfailed].
Qed.

(** C2, as the code has it.  Whenever [processAuthKey] refuses a key, the
    one packet it sends is the four bytes [6c fe ff ff], which is the
    little-endian form of the 32-bit value [0xfffffe6c], the negative length
    -404; the connection is marked failed and inbound packets no longer
    reach the regular handler. *)
Theorem processAuthKey_key_error (c : RemoteClientConnection) (authKeyId : Z) :
  fst (fst (processAuthKey authKeyIdOf c authKeyId)) = false ->
  refused c (fst (processAuthKey authKeyIdOf c authKeyId))
  /\ [0x6c; 0xfe; 0xff; 0xff] = toLittleEndian32 0xfffffe6c
  /\ toInt32 (fromLittleEndian [0x6c; 0xfe; 0xff; 0xff]) = -404
  /\ ~ handlesPacketsNormally
        (snd (fst (processAuthKey authKeyIdOf c authKeyId))).
Proof.
  intros Hfalse.
  destruct (processAuthKey_cases authKeyIdOf c authKeyId)
    as [[_ Hres] | [(_ & _ & _ & Hres) | (_ & _ & Hres)]];
    rewrite Hres in *; try discriminate Hfalse.
  split_and!.
  - apply rejectAuthKey_refused.
  - reflexivity.
  - reflexivity.
  - apply rejectAuthKey_stops_normal_processing.
Qed.

End AuthKey.

(** A connection bound to key 5 receives id 7, which the registry knows: the
    key is refused all the same. *)
Lemma processAuthKey_bound_refuses_known_key :
  7 <> 0
  /\ 7 <> authId (m_sendHelper Sample.boundConnection)
  /\ getAuthKeyById (ServerApi := Sample.api) 7 <> []
  /\ fst (fst (processAuthKey (H := Sample.api) Sample.keyId
                              Sample.boundConnection 7)) = false
  /\ sentPackets
       (m_transport
          (snd (fst (processAuthKey (H := Sample.api) Sample.keyId
                                    Sample.boundConnection 7))))
     = [[0x6c; 0xfe; 0xff; 0xff]].
Proof. split_and!; try discriminate; reflexivity. Qed.

(** On the first packet of a fresh connection: id 7 is registered and gets
    bound; the unregistered id [0xDEADBEEFDEADBEEF] is refused. *)
Lemma processAuthKey_first_packet_witness :
  fst (processAuthKey (H := Sample.api) Sample.keyId Sample.freshConnection 7)
  = (true,
     set_m_sendHelper (mkSendHelper Sample.registeredKey 7)
                      Sample.freshConnection)
  /\ refused Sample.freshConnection
       (fst (processAuthKey (H := Sample.api) Sample.keyId
                            Sample.freshConnection 0xDEADBEEFDEADBEEF)).
Proof.
  split.
  - apply (processAuthKey_first_packet (H := Sample.api) Sample.keyId
             Sample.freshConnection 7); try discriminate; reflexivity.
  - apply (processAuthKey_first_packet (H := Sample.api) Sample.keyId
             Sample.freshConnection 0xDEADBEEFDEADBEEF);
      try discriminate; reflexivity.
Defined.

(** A fresh connection receives id 7: the key is found and bound. *)
Lemma processAuthKey_lookup_witness :
  fst (processAuthKey (H := Sample.api) Sample.keyId Sample.freshConnection 7)
  = (true,
     set_m_sendHelper (mkSendHelper Sample.registeredKey 7)
                      Sample.freshConnection).
Proof.
  apply (processAuthKey_lookup (H := Sample.api) Sample.keyId
           Sample.freshConnection 7); try discriminate; reflexivity.
Defined.

(** A fresh connection receives the unknown id [0xDEADBEEFDEADBEEF]: the
    frame that goes out is [6c fe ff ff], which is not the little-endian form
    of [0xfeffff6c] and does not read back as that number. *)
Lemma key_error_frame_is_not_0xfeffff6c :
  let outcome :=
    fst (processAuthKey (H := Sample.api) Sample.keyId Sample.freshConnection
                        0xDEADBEEFDEADBEEF) in
  fst outcome = false
  /\ sentPackets (m_transport (snd outcome)) = [[0x6c; 0xfe; 0xff; 0xff]]
  /\ sentPackets (m_transport (snd outcome)) <> [toLittleEndian32 0xfeffff6c]
  /\ fromLittleEndian [0x6c; 0xfe; 0xff; 0xff] <> 0xfeffff6c.
Proof. cbv zeta. split_and!; try discriminate; reflexivity. Qed.

Lemma processAuthKey_key_error_witness :
  refused Sample.freshConnection
    (fst (processAuthKey (H := Sample.api) Sample.keyId Sample.freshConnection
                         0xDEADBEEFDEADBEEF)).
Proof.
  apply (processAuthKey_key_error (H := Sample.api) Sample.keyId
           Sample.freshConnection 0xDEADBEEFDEADBEEF).
  reflexivity.
Defined.

(** *** users.getFullUser *)

Section GetFullUser.
Context `{ServerApi}.

(** C3.  When the server API resolves the requested [InputUser] to no user,
    [runGetFullUser] sends exactly one thing, the RPC error with code 400 and
    message [USER_ID_INVALID], and no reply; when it resolves to a user, it
    sends exactly one thing, a [UserFull] reply whose user is the one set up
    from the resolved user, and no error. *)
Theorem runGetFullUser_sends (op : UsersRpcOperation) :
  let requested := getFullUser_id (m_getFullUser op) in
  let self := layer_getUser op in
  (getUser requested self = None ->
   sent (runGetFullUser op)
   = sent op ++ [SentRpcError (RpcError.mk 400 "USER_ID_INVALID")])
  /\ (forall user, getUser requested self = Some user ->
      sent (runGetFullUser op)
      = sent op
        ++ [SentRpcReply
              (TLUserFull.set_user
                 (snd (setupTLUser TLUser.default user self))
                 TLUserFull.default)]).
Proof.
  cbv zeta. unfold runGetFullUser. split.
  - intros ->. reflexivity.
  - intros user ->. reflexivity.
Qed.

End GetFullUser.

(** The request for the unregistered user 999 is answered with the error. *)
Example runGetFullUser_unregistered :
  sent (runGetFullUser (H := Sample.api)
          (mkOperation (mkGetFullUser (TLInputUser.mk TLValue.InputUser 999 0))
                       None []))
  = [SentRpcError (RpcError.mk 400 "USER_ID_INVALID")].
Proof. reflexivity. Qed.

(** The request for the registered user 1 is answered with a reply. *)
Example runGetFullUser_registered :
  sent (runGetFullUser (H := Sample.api)
          (mkOperation (mkGetFullUser (TLInputUser.mk TLValue.InputUser 1 0))
                       None []))
  = [SentRpcReply
       (TLUserFull.mk 0 (TLUser.mk TLValue.User 0 1 0 "" "" "" "") "" 0)].
Proof. reflexivity. Qed.

End ServerFacts.

(** * Further properties of the client data store *)

Module ClientMore.
Import Client ClientFacts.

Lemma andThen_state (f g : Update) (s : DataInternalApi) :
  fst (andThen f g s) = fst (g (fst (f s))).
Proof.
  unfold andThen. destruct (f s) as [s1 l1]. cbn [fst].
  destruct (g s1) as [s2 l2]. reflexivity.
Qed.

Lemma forEach_state_cons {A} (f : A -> Update) (x : A) (xs : list A)
    (s : DataInternalApi) :
  fst (forEach f (x :: xs) s) = fst (forEach f xs (fst (f x s))).
Proof. cbn [forEach]. apply andThen_state. Qed.

(** An invariant of every step is an invariant of the loop. *)
Lemma forEach_invariant {A} (f : A -> Update) (R : relation DataInternalApi) :
  (forall s, R s s) ->
  (forall s1 s2 s3, R s1 s2 -> R s2 s3 -> R s1 s3) ->
  (forall x s, R s (fst (f x s))) ->
  forall xs s, R s (fst (forEach f xs s)).
Proof.
  intros Hrefl Htrans Hstep xs.
  induction xs as [| x rest IH]; intros s.
  - apply Hrefl.
  - rewrite forEach_state_cons. eapply Htrans; [apply Hstep | apply IH].
Qed.

Section Batches.
Context `{TLConstants}.

Lemma processData_TLUsers_frame (users : list TLUser.t) (s : DataInternalApi) :
  let s' := fst (processData_TLUsers users s) in
  m_chats s' = m_chats s
  /\ m_clientMessages s' = m_clientMessages s
  /\ m_channelMessages s' = m_channelMessages s
  /\ m_dialogs s' = m_dialogs s
  /\ m_contactList s' = m_contactList s.
Proof.
  cbv zeta. unfold processData_TLUsers.
  apply (forEach_invariant processData_TLUser
           (fun a b => m_chats b = m_chats a
                       /\ m_clientMessages b = m_clientMessages a
                       /\ m_channelMessages b = m_channelMessages a
                       /\ m_dialogs b = m_dialogs a
                       /\ m_contactList b = m_contactList a)).
  - auto.
  - intros s1 s2 s3 (-> & -> & -> & -> & ->) (-> & -> & -> & -> & ->). auto.
  - intros user s0. rewrite processData_TLUser_state. auto.
Qed.

Lemma processData_TLChats_frame (chats : list TLChat.t) (s : DataInternalApi) :
  let s' := fst (processData_TLChats chats s) in
  m_users s' = m_users s
  /\ m_selfUserId s' = m_selfUserId s
  /\ m_clientMessages s' = m_clientMessages s
  /\ m_channelMessages s' = m_channelMessages s
  /\ m_dialogs s' = m_dialogs s
  /\ m_contactList s' = m_contactList s.
Proof.
  cbv zeta. unfold processData_TLChats.
  apply (forEach_invariant processData_TLChat
           (fun a b => m_users b = m_users a
                       /\ m_selfUserId b = m_selfUserId a
                       /\ m_clientMessages b = m_clientMessages a
                       /\ m_channelMessages b = m_channelMessages a
                       /\ m_dialogs b = m_dialogs a
                       /\ m_contactList b = m_contactList a)).
  - auto 7.
  - intros s1 s2 s3 (-> & -> & -> & -> & -> & ->) (-> & -> & -> & -> & -> & ->).
    auto 7.
  - intros chat s0. rewrite processData_TLChat_state. auto 7.
Qed.

Lemma processData_TLMessages_frame (messages : list TLMessage.t)
    (s : DataInternalApi) :
  let s' := fst (forEach processData_TLMessage messages s) in
  m_users s' = m_users s
  /\ m_selfUserId s' = m_selfUserId s
  /\ m_chats s' = m_chats s
  /\ m_dialogs s' = m_dialogs s
  /\ m_contactList s' = m_contactList s.
Proof.
  cbv zeta.
  apply (forEach_invariant processData_TLMessage
           (fun a b => m_users b = m_users a
                       /\ m_selfUserId b = m_selfUserId a
                       /\ m_chats b = m_chats a
                       /\ m_dialogs b = m_dialogs a
                       /\ m_contactList b = m_contactList a)).
  - auto.
  - intros s1 s2 s3 (-> & -> & -> & -> & ->) (-> & -> & -> & -> & ->). auto.
  - intros message s0. rewrite processData_TLMessage_state.
    case_decide; auto.
Qed.

(** A vector of users is ingested front to back, so for every id the last
    record in the vector with that id is the one stored afterwards, and an id
    the vector does not mention keeps what was stored before. *)
Theorem processData_TLUsers_last_wins (users : list TLUser.t)
    (s : DataInternalApi) (k : Z) :
  m_users (fst (processData_TLUsers users s)) !! k
  = match last (filter (fun user => TLUser.id user = k) users) with
    | Some user => Some user
    | None => m_users s !! k
    end.
Proof.
  unfold processData_TLUsers. revert s.
  induction users as [| user rest IH]; intros s; [reflexivity |].
  rewrite forEach_state_cons, IH, processData_TLUser_state. cbn [m_users].
  rewrite filter_cons. case_decide as Hid.
  - rewrite last_cons.
    destruct (last (filter (fun user0 => TLUser.id user0 = k) rest));
      [reflexivity |].
    subst k. apply lookup_insert_eq.
  - destruct (last (filter (fun user0 => TLUser.id user0 = k) rest));
      [reflexivity |].
    apply lookup_insert_ne. exact Hid.
Qed.

(** After a vector of users is ingested, the self user id is the id of the
    last record in the vector that carries the self flag; without such a
    record it is what it was. *)
Theorem processData_TLUsers_self (users : list TLUser.t)
    (s : DataInternalApi) :
  m_selfUserId (fst (processData_TLUsers users s))
  = match last (filter (fun user => TLUser.self user = true) users) with
    | Some user => TLUser.id user
    | None => m_selfUserId s
    end.
Proof.
  unfold processData_TLUsers. revert s.
  induction users as [| user rest IH]; intros s; [reflexivity |].
  rewrite forEach_state_cons, IH, processData_TLUser_state.
  cbn [m_selfUserId]. rewrite filter_cons. case_decide as Hself.
  - rewrite last_cons, Hself.
    destruct (last (filter (fun user0 => TLUser.self user0 = true) rest));
      reflexivity.
  - destruct (TLUser.self user); [contradiction |].
    destruct (last (filter (fun user0 => TLUser.self user0 = true) rest));
      reflexivity.
Qed.

End Batches.

(** *** Nothing is deleted *)

Lemma keepsKeys_refl (s : DataInternalApi) : keepsKeys s s.
Proof. unfold keepsKeys. auto. Qed.

Lemma keepsKeys_trans (s1 s2 s3 : DataInternalApi) :
  keepsKeys s1 s2 -> keepsKeys s2 s3 -> keepsKeys s1 s3.
Proof.
  unfold keepsKeys. intros (Hu & Hc & Hm & Hn) (Hu' & Hc' & Hm' & Hn').
  split_and!; auto.
Qed.

Lemma is_Some_insert {V} (h : gmap Z V) (k j : Z) (x : V) :
  is_Some (h !! j) -> is_Some (<[k := x]> h !! j).
Proof.
  intros Hj. destruct (decide (k = j)) as [-> | Hne].
  - rewrite lookup_insert_eq. eauto.
  - rewrite lookup_insert_ne by exact Hne. exact Hj.
Qed.

Lemma processData_TLChat_keeps (chat : TLChat.t) (s : DataInternalApi) :
  keepsKeys s (fst (processData_TLChat chat s)).
Proof.
  rewrite processData_TLChat_state. unfold keepsKeys, set_m_chats.
  cbn [m_users m_chats m_clientMessages m_channelMessages].
  split_and!; auto using @is_Some_insert.
Qed.

Lemma processData_TLMessage_keeps (message : TLMessage.t)
    (s : DataInternalApi) :
  keepsKeys s (fst (processData_TLMessage message s)).
Proof.
  rewrite processData_TLMessage_state.
  unfold keepsKeys, set_m_channelMessages, set_m_clientMessages.
  case_decide; cbn [m_users m_chats m_clientMessages m_channelMessages];
    split_and!; auto using @is_Some_insert.
Qed.

Section Keeps.
Context `{TLConstants}.

Lemma processData_TLUser_keeps (user : TLUser.t) (s : DataInternalApi) :
  keepsKeys s (fst (processData_TLUser user s)).
Proof.
  rewrite processData_TLUser_state. unfold keepsKeys.
  cbn [m_users m_chats m_clientMessages m_channelMessages].
  split_and!; auto using @is_Some_insert.
Qed.

Lemma processData_TLUsers_keeps (users : list TLUser.t) (s : DataInternalApi) :
  keepsKeys s (fst (processData_TLUsers users s)).
Proof.
  unfold processData_TLUsers. apply (forEach_invariant processData_TLUser keepsKeys).
  - apply keepsKeys_refl.
  - apply keepsKeys_trans.
  - intros x s0. apply processData_TLUser_keeps.
Qed.

Lemma processData_TLChats_keeps (chats : list TLChat.t) (s : DataInternalApi) :
  keepsKeys s (fst (processData_TLChats chats s)).
Proof.
  unfold processData_TLChats. apply (forEach_invariant processData_TLChat keepsKeys).
  - apply keepsKeys_refl.
  - apply keepsKeys_trans.
  - intros x s0. apply processData_TLChat_keeps.
Qed.

Lemma processData_TLMessages_keeps (messages : list TLMessage.t)
    (s : DataInternalApi) :
  keepsKeys s (fst (forEach processData_TLMessage messages s)).
Proof.
  apply (forEach_invariant processData_TLMessage keepsKeys).
  - apply keepsKeys_refl.
  - apply keepsKeys_trans.
  - intros x s0. apply processData_TLMessage_keeps.
Qed.

Lemma processData_TLMessagesMessages_keeps (messages : TLMessagesMessages.t)
    (s : DataInternalApi) :
  keepsKeys s (fst (processData_TLMessagesMessages messages s)).
Proof.
  unfold processData_TLMessagesMessages. rewrite !andThen_state.
  eapply keepsKeys_trans; [apply processData_TLUsers_keeps |].
  eapply keepsKeys_trans; [apply processData_TLChats_keeps |].
  apply processData_TLMessages_keeps.
Qed.

Lemma processData_TLMessagesDialogs_keeps (dialogs : TLMessagesDialogs.t)
    (s : DataInternalApi) :
  keepsKeys s (fst (processData_TLMessagesDialogs dialogs s)).
Proof.
  unfold processData_TLMessagesDialogs. rewrite !andThen_state. cbn [fst].
  eapply keepsKeys_trans; [| eapply keepsKeys_trans;
    [apply processData_TLUsers_keeps |
     eapply keepsKeys_trans;
       [apply processData_TLChats_keeps | apply processData_TLMessages_keeps]]].
  unfold keepsKeys, set_m_dialogs.
  cbn [m_users m_chats m_clientMessages m_channelMessages]. auto.
Qed.

(** No ingest operation deletes anything: whatever is ingested, one object
    or a whole dialogs or messages result, every user, chat and message key
    the store held before is still held after. *)
Theorem ingest_never_forgets (s : DataInternalApi) :
  (forall user, keepsKeys s (fst (processData_TLUser user s)))
  /\ (forall chat, keepsKeys s (fst (processData_TLChat chat s)))
  /\ (forall message, keepsKeys s (fst (processData_TLMessage message s)))
  /\ (forall users, keepsKeys s (fst (processData_TLUsers users s)))
  /\ (forall chats, keepsKeys s (fst (processData_TLChats chats s)))
  /\ (forall authorization,
        keepsKeys s (fst (processData_TLAuthAuthorization authorization s)))
  /\ (forall dialogs,
        keepsKeys s (fst (processData_TLMessagesDialogs dialogs s)))
  /\ (forall messages,
        keepsKeys s (fst (processData_TLMessagesMessages messages s)))
  /\ (forall contacts, keepsKeys s (fst (setContactList contacts s))).
Proof.
  split_and!; intros.
  - apply processData_TLUser_keeps.
  - apply processData_TLChat_keeps.
  - apply processData_TLMessage_keeps.
  - apply processData_TLUsers_keeps.
  - apply processData_TLChats_keeps.
  - apply processData_TLUser_keeps.
  - apply processData_TLMessagesDialogs_keeps.
  - apply processData_TLMessagesMessages_keeps.
  - unfold keepsKeys, setContactList, set_m_contactList.
    cbn [fst m_users m_chats m_clientMessages m_channelMessages]. auto.
Qed.

End Keeps.

(** *** A dialogs result, ingested and looked up *)

(** What each element establishes, and no later element destroys, holds for
    every element after the loop. *)
Lemma forEach_reaches {A} (f : A -> Update)
    (P : A -> DataInternalApi -> Prop) :
  (forall x s, P x (fst (f x s))) ->
  (forall x y s, P x s -> P x (fst (f y s))) ->
  forall xs s x, x ∈ xs -> P x (fst (forEach f xs s)).
Proof.
  intros Hestablish Hpreserve xs.
  induction xs as [| y rest IH]; intros s x Hin.
  - apply elem_of_nil in Hin. destruct Hin.
  - rewrite forEach_state_cons. apply elem_of_cons in Hin as [-> | Hin].
    + apply (forEach_invariant f (fun a b => P y a -> P y b)); auto.
    + apply IH. exact Hin.
Qed.

(** The message [getMessage] is to find for [message]: through the channel
    peer for a channel message, through any other peer for a plain one. *)
Lemma lookupMessage_of_maps (d : DataStorage) (message : TLMessage.t)
    (peer : Peer.t) :
  (if decide (TLPeer.tlType (TLMessage.toId message) = TLValue.PeerChannel)
   then is_Some (m_channelMessages (m_api d)
                   !! channelMessageToKey
                        (TLPeer.channelId (TLMessage.toId message))
                        (TLMessage.id message))
        /\ peer = Peer.mk Peer.Channel
                          (TLPeer.channelId (TLMessage.toId message))
   else is_Some (m_clientMessages (m_api d) !! TLMessage.id message)
        /\ Peer.type peer <> Peer.Channel) ->
  is_Some (lookupMessage d peer (TLMessage.id message)).
Proof.
  unfold lookupMessage. case_decide as Hch.
  - intros [Hsome ->]. cbn [Peer.type Peer.id].
    rewrite decide_True by reflexivity. exact Hsome.
  - intros [Hsome Hpeer]. rewrite decide_False by exact Hpeer. exact Hsome.
Qed.

Lemma processData_TLMessage_stores (message : TLMessage.t)
    (s : DataInternalApi) :
  messageStored message (fst (processData_TLMessage message s)).
Proof.
  unfold messageStored. rewrite processData_TLMessage_state.
  destruct (decide (TLPeer.tlType (TLMessage.toId message)
                    = TLValue.PeerChannel));
    unfold set_m_channelMessages, set_m_clientMessages;
    cbn [m_channelMessages m_clientMessages];
    rewrite lookup_insert_eq; eauto.
Qed.

Lemma messageStored_preserved (message other : TLMessage.t)
    (s : DataInternalApi) :
  messageStored message s ->
  messageStored message (fst (processData_TLMessage other s)).
Proof.
  unfold messageStored.
  destruct (processData_TLMessage_keeps other s) as (_ & _ & Hp & Hc).
  case_decide; auto.
Qed.

Section DialogsResult.
Context `{TLConstants}.
Variable toPublicPeer : TLPeer.t -> Peer.t.

Lemma getMessage_found (d : DataStorage) (out : Message.t) (peer : Peer.t)
    (messageId : Z) :
  is_Some (lookupMessage d peer messageId) ->
  fst (fst (getMessage d out peer messageId)) = true.
Proof. intros [m Hm]. unfold getMessage. rewrite Hm. reflexivity. Qed.

Lemma findDialog_member (stored : list TLDialog.t) (dialog : TLDialog.t) :
  dialog ∈ stored ->
  is_Some (findDialog toPublicPeer stored
                      (toPublicPeer (TLDialog.peer dialog))).
Proof.
  intros Hin.
  destruct (findDialog toPublicPeer stored
              (toPublicPeer (TLDialog.peer dialog))) eqn:Hfind; [eauto |].
  apply findDialog_None in Hfind. rewrite Forall_forall in Hfind.
  destruct (Hfind dialog Hin eq_refl).
Qed.

(** After a dialogs result is ingested, the dialog list of the store is the
    list of that result (the previous list is replaced, not merged), and
    everything the result carries can be looked up: each dialog by its peer,
    each user and chat by its id, each message by its id through a peer of
    its kind. *)
Theorem processData_TLMessagesDialogs_lookup (result : TLMessagesDialogs.t)
    (d : DataStorage) :
  let d' := viaInternalApi (processData_TLMessagesDialogs result) d in
  dialogs toPublicPeer d'
  = map (fun dialog => toPublicPeer (TLDialog.peer dialog))
        (TLMessagesDialogs.dialogs result)
  /\ (forall dialog info, dialog ∈ TLMessagesDialogs.dialogs result ->
        fst (fst (getDialogInfo toPublicPeer d' info
                                (toPublicPeer (TLDialog.peer dialog)))) = true)
  /\ (forall user info, user ∈ TLMessagesDialogs.users result ->
        fst (fst (getUserInfo d' info (TLUser.id user))) = true)
  /\ (forall chat info, chat ∈ TLMessagesDialogs.chats result ->
        fst (fst (getChatInfo d' info (TLChat.id chat))) = true)
  /\ (forall message out peer,
        message ∈ TLMessagesDialogs.messages result ->
        (if decide (TLPeer.tlType (TLMessage.toId message)
                    = TLValue.PeerChannel)
         then peer = Peer.mk Peer.Channel
                             (TLPeer.channelId (TLMessage.toId message))
         else Peer.type peer <> Peer.Channel) ->
        fst (fst (getMessage d' out peer (TLMessage.id message))) = true).
Proof.
  cbv zeta. unfold viaInternalApi, processData_TLMessagesDialogs.
  rewrite !andThen_state. cbn [fst].
  set (s0 := set_m_dialogs result (m_api d)).
  set (s1 := fst (processData_TLUsers (TLMessagesDialogs.users result) s0)).
  set (s2 := fst (processData_TLChats (TLMessagesDialogs.chats result) s1)).
  set (s3 := fst (forEach processData_TLMessage
                          (TLMessagesDialogs.messages result) s2)).
  destruct (processData_TLUsers_frame (TLMessagesDialogs.users result) s0)
    as (_ & _ & _ & Hd1 & _).
  destruct (processData_TLChats_frame (TLMessagesDialogs.chats result) s1)
    as (_ & _ & _ & _ & Hd2 & _).
  destruct (processData_TLMessages_frame (TLMessagesDialogs.messages result)
              s2) as (_ & _ & _ & Hd3 & _).
  cbv zeta in Hd1, Hd2, Hd3. fold s1 in Hd1, Hd2. fold s2 in Hd2, Hd3.
  fold s3 in Hd3.
  assert (Hdialogs : m_dialogs s3 = result).
  { rewrite Hd3, Hd2, Hd1. reflexivity. }
  pose proof (processData_TLChats_keeps (TLMessagesDialogs.chats result) s1)
    as (Hu12 & _).
  pose proof (processData_TLMessages_keeps
                (TLMessagesDialogs.messages result) s2) as (Hu23 & Hc23 & _).
  fold s2 in Hu12. fold s3 in Hu23, Hc23.
  split_and!.
  - unfold dialogs. cbn [m_api]. rewrite Hdialogs. reflexivity.
  - intros dialog info Hin. unfold getDialogInfo. cbn [m_api].
    rewrite Hdialogs.
    destruct (findDialog_member _ dialog Hin) as [found ->]. reflexivity.
  - intros user info Hin. unfold getUserInfo. cbn [m_api].
    assert (Hsome : is_Some (m_users s3 !! TLUser.id user)).
    { apply Hu23, Hu12.
      apply (forEach_reaches processData_TLUser
               (fun u s => is_Some (m_users s !! TLUser.id u))); [| | exact Hin].
      - intros x s. rewrite processData_TLUser_state. cbn [m_users].
        rewrite lookup_insert_eq. eauto.
      - intros x y s. apply processData_TLUser_keeps. }
    destruct Hsome as [stored ->]. reflexivity.
  - intros chat info Hin. unfold getChatInfo. cbn [m_api].
    assert (Hsome : is_Some (m_chats s3 !! TLChat.id chat)).
    { apply Hc23.
      apply (forEach_reaches processData_TLChat
               (fun c s => is_Some (m_chats s !! TLChat.id c))); [| | exact Hin].
      - intros x s. rewrite processData_TLChat_state. unfold set_m_chats.
        cbn [m_chats]. rewrite lookup_insert_eq. eauto.
      - intros x y s. apply processData_TLChat_keeps. }
    destruct Hsome as [stored ->]. reflexivity.
  - intros message out peer Hin Hpeer.
    apply getMessage_found, lookupMessage_of_maps. cbn [m_api].
    pose proof (forEach_reaches processData_TLMessage messageStored
                  processData_TLMessage_stores messageStored_preserved
                  (TLMessagesDialogs.messages result) s2 message Hin)
      as Hreach.
    unfold messageStored in Hreach.
    fold s3 in Hreach.
    destruct (decide (TLPeer.tlType (TLMessage.toId message)
                      = TLValue.PeerChannel)); auto.
Qed.

(** A messages result is ingested like a dialogs result, except that the
    dialog list stays: [dialogs] and [getDialogInfo] answer as before, the
    contact list is untouched, and every user, chat and message of the
    result can be looked up. *)
Theorem processData_TLMessagesMessages_lookup (result : TLMessagesMessages.t)
    (d : DataStorage) :
  let d' := viaInternalApi (processData_TLMessagesMessages result) d in
  dialogs toPublicPeer d' = dialogs toPublicPeer d
  /\ (forall info peer,
        getDialogInfo toPublicPeer d' info peer
        = getDialogInfo toPublicPeer d info peer)
  /\ contactList d' = contactList d
  /\ (forall user info, user ∈ TLMessagesMessages.users result ->
        fst (fst (getUserInfo d' info (TLUser.id user))) = true)
  /\ (forall chat info, chat ∈ TLMessagesMessages.chats result ->
        fst (fst (getChatInfo d' info (TLChat.id chat))) = true)
  /\ (forall message out peer,
        message ∈ TLMessagesMessages.messages result ->
        (if decide (TLPeer.tlType (TLMessage.toId message)
                    = TLValue.PeerChannel)
         then peer = Peer.mk Peer.Channel
                             (TLPeer.channelId (TLMessage.toId message))
         else Peer.type peer <> Peer.Channel) ->
        fst (fst (getMessage d' out peer (TLMessage.id message))) = true).
Proof.
  cbv zeta. unfold viaInternalApi, processData_TLMessagesMessages.
  rewrite !andThen_state.
  set (s0 := m_api d).
  set (s1 := fst (processData_TLUsers (TLMessagesMessages.users result) s0)).
  set (s2 := fst (processData_TLChats (TLMessagesMessages.chats result) s1)).
  set (s3 := fst (forEach processData_TLMessage
                          (TLMessagesMessages.messages result) s2)).
  destruct (processData_TLUsers_frame (TLMessagesMessages.users result) s0)
    as (_ & _ & _ & Hd1 & Hl1).
  destruct (processData_TLChats_frame (TLMessagesMessages.chats result) s1)
    as (_ & _ & _ & _ & Hd2 & Hl2).
  destruct (processData_TLMessages_frame (TLMessagesMessages.messages result)
              s2) as (_ & _ & _ & Hd3 & Hl3).
  cbv zeta in Hd1, Hd2, Hd3, Hl1, Hl2, Hl3.
  fold s1 in Hd1, Hd2, Hl1, Hl2. fold s2 in Hd2, Hd3, Hl2, Hl3.
  fold s3 in Hd3, Hl3.
  assert (Hdialogs : m_dialogs s3 = m_dialogs s0).
  { rewrite Hd3, Hd2, Hd1. reflexivity. }
  assert (Hcontacts : m_contactList s3 = m_contactList s0).
  { rewrite Hl3, Hl2, Hl1. reflexivity. }
  pose proof (processData_TLChats_keeps (TLMessagesMessages.chats result) s1)
    as (Hu12 & _).
  pose proof (processData_TLMessages_keeps
                (TLMessagesMessages.messages result) s2) as (Hu23 & Hc23 & _).
  fold s2 in Hu12. fold s3 in Hu23, Hc23.
  split_and!.
  - unfold dialogs. cbn [m_api]. rewrite Hdialogs. reflexivity.
  - intros info peer. unfold getDialogInfo. cbn [m_api].
    rewrite Hdialogs. reflexivity.
  - unfold contactList. cbn [m_api]. rewrite Hcontacts. reflexivity.
  - intros user info Hin. unfold getUserInfo. cbn [m_api].
    assert (Hsome : is_Some (m_users s3 !! TLUser.id user)).
    { apply Hu23, Hu12.
      apply (forEach_reaches processData_TLUser
               (fun u s => is_Some (m_users s !! TLUser.id u))); [| | exact Hin].
      - intros x s. rewrite processData_TLUser_state. cbn [m_users].
        rewrite lookup_insert_eq. eauto.
      - intros x y s. apply processData_TLUser_keeps. }
    destruct Hsome as [stored ->]. reflexivity.
  - intros chat info Hin. unfold getChatInfo. cbn [m_api].
    assert (Hsome : is_Some (m_chats s3 !! TLChat.id chat)).
    { apply Hc23.
      apply (forEach_reaches processData_TLChat
               (fun c s => is_Some (m_chats s !! TLChat.id c))); [| | exact Hin].
      - intros x s. rewrite processData_TLChat_state. unfold set_m_chats.
        cbn [m_chats]. rewrite lookup_insert_eq. eauto.
      - intros x y s. apply processData_TLChat_keeps. }
    destruct Hsome as [stored ->]. reflexivity.
  - intros message out peer Hin Hpeer.
    apply getMessage_found, lookupMessage_of_maps. cbn [m_api].
    pose proof (forEach_reaches processData_TLMessage messageStored
                  processData_TLMessage_stores messageStored_preserved
                  (TLMessagesMessages.messages result) s2 message Hin)
      as Hreach.
    unfold messageStored in Hreach. fold s3 in Hreach.
    destruct (decide (TLPeer.tlType (TLMessage.toId message)
                      = TLValue.PeerChannel)); auto.
Qed.

End DialogsResult.

(** *** Dialogs *)

Section Dialogs.
Variable toPublicPeer : TLPeer.t -> Peer.t.

(** [getDialogInfo] succeeds for exactly the peers that [dialogs] lists. *)
Theorem getDialogInfo_iff_listed (d : DataStorage) (info : DialogInfo)
    (peer : Peer.t) :
  fst (fst (getDialogInfo toPublicPeer d info peer)) = true
  <-> peer ∈ dialogs toPublicPeer d.
Proof.
  unfold getDialogInfo, dialogs.
  rewrite list_elem_of_In, in_map_iff.
  destruct (findDialog toPublicPeer
              (TLMessagesDialogs.dialogs (m_dialogs (m_api d))) peer)
    as [found |] eqn:Hfind; cbn [fst].
  - apply findDialog_Some in Hfind as [Hin Hpeer].
    split; [| reflexivity]. intros _. exists found.
    split; [exact Hpeer | apply list_elem_of_In; exact Hin].
  - apply findDialog_None in Hfind. rewrite Forall_forall in Hfind.
    split; [discriminate |]. intros (dialog & Hpeer & Hin).
    apply list_elem_of_In in Hin. destruct (Hfind dialog Hin Hpeer).
Qed.

Lemma findDialog_first (before after : list TLDialog.t) (dialog : TLDialog.t)
    (peer : Peer.t) :
  Forall (fun other => toPublicPeer (TLDialog.peer other) <> peer) before ->
  toPublicPeer (TLDialog.peer dialog) = peer ->
  findDialog toPublicPeer (before ++ dialog :: after) peer = Some dialog.
Proof.
  intros Hbefore Hpeer. induction Hbefore as [| other rest Hne _ IH]; simpl.
  - rewrite decide_True by exact Hpeer. reflexivity.
  - rewrite decide_False by exact Hne. exact IH.
Qed.

(** When several stored dialogs have the requested peer, [getDialogInfo]
    copies the first of them in list order. *)
Theorem getDialogInfo_first_match (d : DataStorage) (info : DialogInfo)
    (peer : Peer.t) (before after : list TLDialog.t) (dialog : TLDialog.t) :
  TLMessagesDialogs.dialogs (m_dialogs (m_api d))
  = before ++ dialog :: after ->
  Forall (fun other => toPublicPeer (TLDialog.peer other) <> peer) before ->
  toPublicPeer (TLDialog.peer dialog) = peer ->
  getDialogInfo toPublicPeer d info peer = (true, mkDialogInfo dialog, []).
Proof.
  intros Hstored Hbefore Hpeer. unfold getDialogInfo.
  rewrite Hstored, (findDialog_first before after dialog peer Hbefore Hpeer).
  reflexivity.
Qed.

End Dialogs.

(** Of the two sample dialogs with user 6, the earlier one is returned. *)
Lemma getDialogInfo_first_match_witness :
  getDialogInfo Sample.toPublicPeer Sample.storageWithDialogs
                (mkDialogInfo TLDialog.default) (Peer.mk Peer.User 6)
  = (true, mkDialogInfo Sample.dialogWithUser, []).
Proof.
  apply (getDialogInfo_first_match Sample.toPublicPeer
           Sample.storageWithDialogs (mkDialogInfo TLDialog.default)
           (Peer.mk Peer.User 6) [Sample.dialogWithChat]
           [Sample.dialogWithUserAgain] Sample.dialogWithUser).
  - reflexivity.
  - constructor; [discriminate | constructor].
  - reflexivity.
Defined.

(** *** Ingest, then look up *)

Section RoundTrips.
Context `{TLConstants}.

(** A user that was ingested is returned by [getUserInfo] under its id, as
    ingested and without a log line; the answer for every other id is the
    one the storage gave before.  The same holds for a chat and
    [getChatInfo]. *)
Theorem ingest_then_getInfo (d : DataStorage) (user : TLUser.t)
    (chat : TLChat.t) :
  (forall info,
     getUserInfo (viaInternalApi (processData_TLUser user) d) info
                 (TLUser.id user)
     = (true, mkUserInfo user, []))
  /\ (forall info k, k <> TLUser.id user ->
        getUserInfo (viaInternalApi (processData_TLUser user) d) info k
        = getUserInfo d info k)
  /\ (forall info k,
        getChatInfo (viaInternalApi (processData_TLUser user) d) info k
        = getChatInfo d info k)
  /\ (forall info,
        getChatInfo (viaInternalApi (processData_TLChat chat) d) info
                    (TLChat.id chat)
        = (true, mkChatInfo chat, []))
  /\ (forall info k, k <> TLChat.id chat ->
        getChatInfo (viaInternalApi (processData_TLChat chat) d) info k
        = getChatInfo d info k)
  /\ (forall info k,
        getUserInfo (viaInternalApi (processData_TLChat chat) d) info k
        = getUserInfo d info k).
Proof.
  unfold getUserInfo, getChatInfo, viaInternalApi. cbn [m_api].
  rewrite processData_TLUser_state, processData_TLChat_state.
  unfold set_m_chats. cbn [m_users m_chats].
  split_and!; intros.
  - rewrite lookup_insert_eq. reflexivity.
  - rewrite lookup_insert_ne by congruence. reflexivity.
  - reflexivity.
  - rewrite lookup_insert_eq. reflexivity.
  - rewrite lookup_insert_ne by congruence. reflexivity.
  - reflexivity.
Qed.

(** Once a record with the self flag has been ingested, [getSelfUser]
    returns that record, unless its id is zero: zero is how the store spells
    "no self user", so a self user with id zero is stored and still not
    returned. *)
Theorem getSelfUser_after_ingest (s : DataInternalApi) (user : TLUser.t) :
  TLUser.self user = true ->
  getSelfUser (fst (processData_TLUser user s))
  = if TLUser.id user =? 0 then None else Some user.
Proof.
  intros Hself. unfold getSelfUser.
  rewrite processData_TLUser_state, Hself. cbn [m_selfUserId m_users].
  unfold truthy. destruct (TLUser.id user =? 0); cbn [negb]; [reflexivity |].
  apply lookup_insert_eq.
Qed.

(** The user peer of a user that was just ingested always resolves, without
    a warning: to the self shortcut if the record carries the self flag or
    its id is the self user id, and otherwise to [InputPeerUser] with the
    access hash of the record.  The channel peer with the id of a chat that
    was just ingested resolves to [InputPeerChannel] with the access hash of
    that chat, whatever the kind of the chat record. *)
Theorem toInputPeer_after_ingest (s : DataInternalApi) (user : TLUser.t)
    (chat : TLChat.t) :
  toInputPeer (fst (processData_TLUser user s))
              (Peer.mk Peer.User (TLUser.id user))
  = (if TLUser.self user || (TLUser.id user =? m_selfUserId s)
     then TLInputPeer.mk TLValue.InputPeerSelf 0 0 0 0
     else TLInputPeer.mk TLValue.InputPeerUser 0 (TLUser.id user)
                         (TLUser.accessHash user) 0,
     [])
  /\ toInputPeer (fst (processData_TLChat chat s))
                 (Peer.mk Peer.Channel (TLChat.id chat))
     = (TLInputPeer.mk TLValue.InputPeerChannel 0 0 (TLChat.accessHash chat)
                       (TLChat.id chat), []).
Proof.
  unfold toInputPeer. cbn [Peer.type Peer.id].
  rewrite processData_TLUser_state, processData_TLChat_state.
  unfold set_m_chats. cbn [m_selfUserId m_users m_chats].
  rewrite !lookup_insert_eq. split; [| reflexivity].
  destruct (TLUser.self user); cbn [orb].
  - rewrite Z.eqb_refl. reflexivity.
  - destruct (TLUser.id user =? m_selfUserId s); reflexivity.
Qed.

End RoundTrips.

(** The second sample self user has id 8, and is returned. *)
Lemma getSelfUser_after_ingest_witness :
  getSelfUser (fst (processData_TLUser (H := Sample.constants)
                      Sample.secondSelfUser Sample.store))
  = Some Sample.secondSelfUser.
Proof.
  apply (getSelfUser_after_ingest (H := Sample.constants) Sample.store
           Sample.secondSelfUser).
  reflexivity.
Defined.

(** *** Resolving peers *)

(** [toInputPeer] writes a warning exactly when it returns the empty input
    peer, and then it returns the default-constructed object; it never
    writes more than one line.  A caller can tell a failed resolution by
    the [InputPeerEmpty] tag alone. *)
Theorem toInputPeer_warns_iff_empty (s : DataInternalApi) (p : Peer.t) :
  (snd (toInputPeer s p) = []
   <-> TLInputPeer.tlType (fst (toInputPeer s p)) <> TLValue.InputPeerEmpty)
  /\ (TLInputPeer.tlType (fst (toInputPeer s p)) = TLValue.InputPeerEmpty ->
      fst (toInputPeer s p) = TLInputPeer.default
      /\ exists line, snd (toInputPeer s p) = [line]
                      /\ log_level line = QtWarningMsg)
  /\ (length (snd (toInputPeer s p)) <= 1)%nat.
Proof.
  destruct p as [ty i]. unfold toInputPeer. cbn [Peer.type Peer.id].
  destruct ty.
  - destruct (i =? m_selfUserId s); [| destruct (m_users s !! i)];
      cbn; split_and!; try (split; congruence); try discriminate; try lia;
      intros _; split; [reflexivity | eexists; split; reflexivity].
  - cbn; split_and!; try (split; congruence); try discriminate; lia.
  - destruct (m_chats s !! i);
      cbn; split_and!; try (split; congruence); try discriminate; try lia;
      intros _; split; [reflexivity | eexists; split; reflexivity].
  - cbn; split_and!; try (split; congruence); try lia.
    intros _; split; [reflexivity | eexists; split; reflexivity].
Qed.

(** *** Keys *)

Lemma wellKeyed_new : wellKeyed DataInternalApi_new.
Proof.
  unfold wellKeyed, DataInternalApi_new.
  cbn [m_users m_chats m_clientMessages m_channelMessages].
  split_and!; intros k x Hx; rewrite lookup_empty in Hx; discriminate Hx.
Qed.

Lemma insert_own_key {V} (good : Z -> V -> Prop)
    (h : gmap Z V) (x : V) (k : Z) :
  (forall j y, h !! j = Some y -> good j y) ->
  good k x ->
  forall j y, <[k := x]> h !! j = Some y -> good j y.
Proof.
  intros Hh Hx j y. destruct (decide (k = j)) as [<- | Hne].
  - rewrite lookup_insert_eq. intros [= <-]. exact Hx.
  - rewrite lookup_insert_ne by exact Hne. apply Hh.
Qed.

Lemma processData_TLChat_wellKeyed (chat : TLChat.t) (s : DataInternalApi) :
  wellKeyed s -> wellKeyed (fst (processData_TLChat chat s)).
Proof.
  intros (Hu & Hc & Hp & Hn). rewrite processData_TLChat_state.
  unfold wellKeyed, set_m_chats.
  cbn [m_users m_chats m_clientMessages m_channelMessages].
  split_and!; [exact Hu | | exact Hp | exact Hn].
  apply insert_own_key; [exact Hc | reflexivity].
Qed.

Lemma processData_TLMessage_wellKeyed (message : TLMessage.t)
    (s : DataInternalApi) :
  wellKeyed s -> wellKeyed (fst (processData_TLMessage message s)).
Proof.
  intros (Hu & Hc & Hp & Hn). rewrite processData_TLMessage_state.
  unfold wellKeyed, set_m_channelMessages, set_m_clientMessages.
  case_decide as Hch;
    cbn [m_users m_chats m_clientMessages m_channelMessages].
  - split_and!; [exact Hu | exact Hc | exact Hp |].
    apply insert_own_key; [exact Hn | split; auto].
  - split_and!; [exact Hu | exact Hc | | exact Hn].
    apply insert_own_key; [exact Hp | split; auto].
Qed.

Section Keys.
Context `{TLConstants}.

Lemma processData_TLUser_wellKeyed (user : TLUser.t) (s : DataInternalApi) :
  wellKeyed s -> wellKeyed (fst (processData_TLUser user s)).
Proof.
  intros (Hu & Hc & Hp & Hn). rewrite processData_TLUser_state.
  unfold wellKeyed. cbn [m_users m_chats m_clientMessages m_channelMessages].
  split_and!; [| exact Hc | exact Hp | exact Hn].
  apply insert_own_key; [exact Hu | reflexivity].
Qed.

Lemma forEach_wellKeyed {A} (f : A -> Update) :
  (forall x s, wellKeyed s -> wellKeyed (fst (f x s))) ->
  forall xs s, wellKeyed s -> wellKeyed (fst (forEach f xs s)).
Proof.
  intros Hstep xs s.
  apply (forEach_invariant f (fun a b => wellKeyed a -> wellKeyed b)); auto.
Qed.

(** Every object in the store sits under its own key.  This holds for a new
    store and every ingest operation keeps it, so it holds for every store
    that was filled through [processData]: what [getUserInfo] returns for an
    id is a user with that id, and likewise for chats and messages; a
    channel message is never in the plain index, nor a plain one in the
    channel index. *)
Theorem store_is_wellKeyed :
  wellKeyed DataInternalApi_new
  /\ (forall s, wellKeyed s ->
        (forall user, wellKeyed (fst (processData_TLUser user s)))
        /\ (forall chat, wellKeyed (fst (processData_TLChat chat s)))
        /\ (forall message, wellKeyed (fst (processData_TLMessage message s)))
        /\ (forall users, wellKeyed (fst (processData_TLUsers users s)))
        /\ (forall chats, wellKeyed (fst (processData_TLChats chats s)))
        /\ (forall authorization,
              wellKeyed (fst (processData_TLAuthAuthorization
                                authorization s)))
        /\ (forall dialogs,
              wellKeyed (fst (processData_TLMessagesDialogs dialogs s)))
        /\ (forall messages,
              wellKeyed (fst (processData_TLMessagesMessages messages s)))
        /\ (forall contacts, wellKeyed (fst (setContactList contacts s)))).
Proof.
  split; [exact wellKeyed_new |]. intros s Hs.
  assert (Husers : forall users s0, wellKeyed s0 ->
            wellKeyed (fst (processData_TLUsers users s0))).
  { intros users. apply forEach_wellKeyed. intros x s0.
    apply processData_TLUser_wellKeyed. }
  assert (Hchats : forall chats s0, wellKeyed s0 ->
            wellKeyed (fst (processData_TLChats chats s0))).
  { intros chats. apply forEach_wellKeyed. intros x s0.
    apply processData_TLChat_wellKeyed. }
  assert (Hmessages : forall messages s0, wellKeyed s0 ->
            wellKeyed (fst (forEach processData_TLMessage messages s0))).
  { intros messages. apply forEach_wellKeyed. intros x s0.
    apply processData_TLMessage_wellKeyed. }
  split_and!; intros.
  - apply processData_TLUser_wellKeyed, Hs.
  - apply processData_TLChat_wellKeyed, Hs.
  - apply processData_TLMessage_wellKeyed, Hs.
  - apply Husers, Hs.
  - apply Hchats, Hs.
  - apply processData_TLUser_wellKeyed, Hs.
  - unfold processData_TLMessagesDialogs. rewrite !andThen_state. cbn [fst].
    apply Hmessages, Hchats, Husers. exact Hs.
  - unfold processData_TLMessagesMessages. rewrite !andThen_state.
    apply Hmessages, Hchats, Husers. exact Hs.
  - exact Hs.
Qed.

(** The three kinds of objects live in different indices, so ingesting a
    user, a chat and a message leaves the same store in whatever order it
    is done. *)
Theorem ingest_kinds_commute (s : DataInternalApi) (user : TLUser.t)
    (chat : TLChat.t) (message : TLMessage.t) :
  fst (processData_TLChat chat (fst (processData_TLUser user s)))
  = fst (processData_TLUser user (fst (processData_TLChat chat s)))
  /\ fst (processData_TLMessage message (fst (processData_TLUser user s)))
     = fst (processData_TLUser user (fst (processData_TLMessage message s)))
  /\ fst (processData_TLMessage message (fst (processData_TLChat chat s)))
     = fst (processData_TLChat chat (fst (processData_TLMessage message s))).
Proof.
  rewrite !processData_TLUser_state, !processData_TLChat_state,
    !processData_TLMessage_state.
  unfold set_m_chats, set_m_channelMessages, set_m_clientMessages.
  case_decide; cbn [m_selfUserId m_users m_chats m_clientMessages
                    m_channelMessages m_dialogs m_contactList];
    split_and!; reflexivity.
Qed.

(** For a peer that is not a channel, [getMessage] looks the message up by
    its id alone: the same call through a user peer, a chat peer or a peer of
    unknown type gives the same result and fills the out-parameter in the
    same way, whichever ids the peers have. *)
Theorem getMessage_ignores_plain_peer (d : DataStorage) (out : Message.t)
    (userId chatId otherId messageId : Z) :
  fst (getMessage d out (Peer.mk Peer.User userId) messageId)
  = fst (getMessage d out (Peer.mk Peer.Chat chatId) messageId)
  /\ fst (getMessage d out (Peer.mk Peer.Chat chatId) messageId)
     = fst (getMessage d out (Peer.mk Peer.Unknown otherId) messageId).
Proof.
  unfold getMessage, lookupMessage. cbn [Peer.type].
  rewrite !decide_False by discriminate.
  destruct (m_clientMessages (m_api d) !! messageId); split; reflexivity.
Qed.

End Keys.

(** *** A new storage, and the contact list *)


(** [setContactList] replaces the contact list; [contactList] then returns
    one user peer per contact, in the order given, and no lookup of a user,
    chat or message is affected. *)
Theorem setContactList_then_contactList (d : DataStorage)
    (contacts : list TLContact.t) :
  let d' := viaInternalApi (setContactList contacts) d in
  contactList d'
  = map (fun contact => Peer.mk Peer.User (TLContact.userId contact)) contacts
  /\ Forall (fun peer => Peer.type peer = Peer.User) (contactList d')
  /\ length (contactList d') = length contacts
  /\ (forall info userId, getUserInfo d' info userId = getUserInfo d info userId)
  /\ (forall info chatId, getChatInfo d' info chatId = getChatInfo d info chatId)
  /\ (forall peer messageId,
        lookupMessage d' peer messageId = lookupMessage d peer messageId).
Proof.
  cbv zeta. unfold contactList, viaInternalApi, setContactList. cbn.
  split_and!; try reflexivity.
  - apply Forall_forall. intros peer Hin.
    apply list_elem_of_In, in_map_iff in Hin as (contact & <- & _). reflexivity.
  - apply length_map.
Qed.

End ClientMore.

(** * Further properties of the DC configuration *)

Module DcConfigurationMore.
Import DcConfiguration.

Lemma land_shiftl_low (c m k : Z) :
  0 <= k -> 0 <= m < 2 ^ k -> Z.land (Z.shiftl c k) m = 0.
Proof.
  intros Hk Hm. apply Z.bits_inj'. intros n Hn.
  rewrite Z.land_spec, Z.bits_0.
  destruct (Z.lt_ge_cases n k) as [Hlt | Hge].
  - rewrite Z.shiftl_spec_low by lia. reflexivity.
  - rewrite <- (Z.mod_small m (2 ^ k)) by exact Hm.
    rewrite Z.mod_pow2_bits_high by lia. apply andb_false_r.
Qed.

(** The value handed to [::qHash] when nothing wraps around. *)
Lemma hash_argument_sum (key : ConnectionSpec) :
  0 <= dcId key < 2 ^ 20 -> 0 <= flags key < 2 ^ 12 ->
  wrap32 (Z.lor (dcId key) (wrap32 (Z.shiftl (wrap32 (flags key)) 20)))
  = dcId key + flags key * 2 ^ 20.
Proof.
  intros Hd Hf.
  rewrite (wrap32_small (flags key)) by (unfold is_u32; lia).
  assert (Hshift : Z.shiftl (flags key) 20 = flags key * 2 ^ 20)
    by (apply Z.shiftl_mul_pow2; lia).
  rewrite (wrap32_small (Z.shiftl (flags key) 20))
    by (rewrite Hshift; unfold is_u32; lia).
  rewrite <- (Z.add_0_r (Z.lor _ _)).
  rewrite <- (land_shiftl_low (flags key) (dcId key) 20) by lia.
  rewrite (Z.land_comm (Z.shiftl _ _)), Z.add_lor_land, Hshift.
  apply wrap32_small. unfold is_u32. lia.
Qed.

(** With a [::qHash] that is injective on 32-bit keys for the seed (Qt's is
    a bijection of the key), specs whose [dcId] is below [2^20] and whose
    flags fit in twelve bits never collide: different specs have different
    hashes. *)
Theorem qHash_injective_in_range (qHash_uint : Z -> Z -> Z) (seed : Z)
    (a b : ConnectionSpec) :
  (forall x y, is_u32 x -> is_u32 y ->
               qHash_uint x seed = qHash_uint y seed -> x = y) ->
  0 <= dcId a < 2 ^ 20 -> 0 <= flags a < 2 ^ 12 ->
  0 <= dcId b < 2 ^ 20 -> 0 <= flags b < 2 ^ 12 ->
  a <> b ->
  qHash qHash_uint a seed <> qHash qHash_uint b seed.
Proof.
  intros Hinj Hda Hfa Hdb Hfb Hne Hhash. apply Hne. unfold qHash in Hhash.
  apply Hinj in Hhash;
    [| unfold wrap32, is_u32; apply Z.mod_pos_bound; lia ..].
  rewrite !hash_argument_sum in Hhash by assumption.
  destruct a as [da fa], b as [db fb]. cbn [dcId flags] in *.
  assert (fa = fb) by lia. assert (da = db) by lia. congruence.
Qed.

(** Qt hashes an unsigned key with [key ^ seed]; under it DC 2 with the IPv4
    flag and DC 2 without flags hash differently. *)
Lemma qHash_injective_in_range_witness :
  qHash Z.lxor (mkConnectionSpec 2 RequestFlag_Ipv4Only) 0
  <> qHash Z.lxor (mkConnectionSpec 2 RequestFlag_None) 0.
Proof.
  apply (qHash_injective_in_range Z.lxor 0).
  - intros x y _ _ Hxy. rewrite !Z.lxor_0_r in Hxy. exact Hxy.
  - change (0 <= 2 < 2 ^ 20). lia.
  - change (0 <= 2 < 2 ^ 12). lia.
  - change (0 <= 2 < 2 ^ 20). lia.
  - change (0 <= 0 < 2 ^ 12). lia.
  - discriminate.
Defined.

(** Above that range the two fields overlap: a [dcId] with bits from bit 20
    up hashes like the spec that has those bits as its flags.  The two specs
    are different for every non-zero [f], and [operator==] tells them
    apart. *)
Theorem qHash_overlap (qHash_uint : Z -> Z -> Z) (seed f : Z) :
  qHash qHash_uint (mkConnectionSpec (Z.shiftl f 20) 0) seed
  = qHash qHash_uint (mkConnectionSpec 0 f) seed
  /\ ConnectionSpec_eq (mkConnectionSpec (Z.shiftl f 20) 0)
                       (mkConnectionSpec 0 f)
     = (f =? 0).
Proof.
  split.
  - unfold qHash. cbn [dcId flags]. f_equal.
    rewrite !wrap32_lor, !wrap32_idem, !wrap32_shiftl by lia.
    change (wrap32 (Z.shiftl 0 20)) with 0.
    change (wrap32 0) with 0.
    rewrite Z.lor_0_r, Z.lor_0_l. reflexivity.
  - unfold ConnectionSpec_eq. cbn [dcId flags].
    destruct (Z.eqb_spec f 0) as [-> | Hne].
    + reflexivity.
    + rewrite andb_false_r. reflexivity.
Qed.

End DcConfigurationMore.

(** * Further properties of the server connection and the users operation *)

Module ServerMore.
Import Server ServerFacts.

Section AuthKeyMore.
Context `{ServerApi}.
Variable authKeyIdOf : QByteArray -> Z.

(** [processAuthKey] accepts an auth key id in exactly two situations: it is
    the id bound on the send helper (zero on both sides included), or the
    helper has no key and the server API has a key for the id. *)
Theorem processAuthKey_verdict (c : RemoteClientConnection) (authKeyId : Z) :
  fst (fst (processAuthKey authKeyIdOf c authKeyId)) = true
  <-> authKeyId = authId (m_sendHelper c)
      \/ (authId (m_sendHelper c) = 0 /\ getAuthKeyById authKeyId <> []).
Proof.
  destruct (processAuthKey_cases authKeyIdOf c authKeyId)
    as [[Heq Hres] | [(Hne & Hz & Hkey & Hres) | (Hne & Hwhy & Hres)]];
    rewrite Hres; cbn [fst].
  - split; auto.
  - split; auto.
  - destruct (rejectAuthKey_spec c) as (-> & _). split; [discriminate |].
    intros [Heq | [Hz Hkey]]; [contradiction |].
    destruct Hwhy; contradiction.
Qed.

(** An accepted key costs the peer nothing: no packet is sent, the status
    and the packet handlers stay as they were.  If the id was the bound one,
    the connection is untouched and nothing is logged; otherwise the helper
    now holds the key the server API returned for the id. *)
Theorem processAuthKey_accept_frame (c : RemoteClientConnection)
    (authKeyId : Z) :
  fst (fst (processAuthKey authKeyIdOf c authKeyId)) = true ->
  let c' := snd (fst (processAuthKey authKeyIdOf c authKeyId)) in
  m_transport c' = m_transport c
  /\ m_status c' = m_status c
  /\ m_statusReason c' = m_statusReason c
  /\ (authKeyId = authId (m_sendHelper c) ->
      processAuthKey authKeyIdOf c authKeyId = (true, c, []))
  /\ (authKeyId <> authId (m_sendHelper c) ->
      m_authKey (m_sendHelper c') = getAuthKeyById authKeyId
      /\ authId (m_sendHelper c') = authKeyIdOf (getAuthKeyById authKeyId)).
Proof.
  intros Htrue. cbv zeta.
  destruct (processAuthKey_cases authKeyIdOf c authKeyId)
    as [[Heq Hres] | [(Hne & Hz & Hkey & Hres) | (Hne & Hwhy & Hres)]];
    rewrite Hres in *; cbn [fst snd] in *.
  - split_and!; try reflexivity; [| contradiction].
    intros _. unfold processAuthKey.
    apply Z.eqb_eq in Heq. rewrite Heq. reflexivity.
  - split_and!; try reflexivity; [contradiction |].
    intros _. split; reflexivity.
  - destruct (rejectAuthKey_spec c) as (Hfalse & _).
    rewrite Hfalse in Htrue. discriminate Htrue.
Qed.

(** When the id of the key that the server API returns is the id it was
    asked for, binding is stable: the same auth key id presented again to
    the connection that accepted it is accepted without a lookup, without a
    log line and without any change. *)
Theorem processAuthKey_again (c : RemoteClientConnection) (authKeyId : Z) :
  authKeyIdOf (getAuthKeyById authKeyId) = authKeyId ->
  fst (fst (processAuthKey authKeyIdOf c authKeyId)) = true ->
  let c' := snd (fst (processAuthKey authKeyIdOf c authKeyId)) in
  processAuthKey authKeyIdOf c' authKeyId = (true, c', []).
Proof.
  intros Hconsistent Htrue. cbv zeta.
  assert (Hbound : authId (m_sendHelper
                     (snd (fst (processAuthKey authKeyIdOf c authKeyId))))
                   = authKeyId).
  { destruct (processAuthKey_cases authKeyIdOf c authKeyId)
      as [[Heq Hres] | [(Hne & Hz & Hkey & Hres) | (Hne & Hwhy & Hres)]];
      rewrite Hres in *; cbn [fst snd] in *.
    - symmetry. exact Heq.
    - exact Hconsistent.
    - destruct (rejectAuthKey_spec c) as (Hfalse & _).
      rewrite Hfalse in Htrue. discriminate Htrue. }
  unfold processAuthKey at 1. rewrite Hbound, Z.eqb_refl. reflexivity.
Qed.

End AuthKeyMore.

(** A fresh connection that is given the registered id 7 binds the key and
    sends nothing. *)
Lemma processAuthKey_accept_frame_witness :
  m_transport
    (snd (fst (processAuthKey (H := Sample.api) Sample.keyId
                              Sample.freshConnection 7)))
  = Sample.transport
  /\ m_authKey
       (m_sendHelper
          (snd (fst (processAuthKey (H := Sample.api) Sample.keyId
                                    Sample.freshConnection 7))))
     = Sample.registeredKey.
Proof.
  destruct (processAuthKey_accept_frame (H := Sample.api) Sample.keyId
              Sample.freshConnection 7 eq_refl)
    as (Htransport & _ & _ & _ & Hkey).
  split; [exact Htransport |]. apply Hkey. discriminate.
Defined.

(** The connection that has bound key 7 accepts id 7 again as it is. *)
Lemma processAuthKey_again_witness :
  let bound :=
    snd (fst (processAuthKey (H := Sample.api) Sample.keyId
                             Sample.freshConnection 7)) in
  processAuthKey (H := Sample.api) Sample.keyId bound 7 = (true, bound, []).
Proof.
  apply (processAuthKey_again (H := Sample.api) Sample.keyId
           Sample.freshConnection 7); reflexivity.
Defined.

Lemma sendKeyError_fields (c : RemoteClientConnection) :
  sentPackets (m_transport (sendKeyError c))
  = sentPackets (m_transport c) ++ [errorPackage]
  /\ packetReceived (m_transport (sendKeyError c))
     = packetReceived (m_transport c)
  /\ m_sendHelper (sendKeyError c) = m_sendHelper c
  /\ m_status (sendKeyError c) = m_status c
  /\ m_statusReason (sendKeyError c) = m_statusReason c.
Proof. repeat split; reflexivity. Qed.

(** [sendKeyError] sends the four-byte frame and does nothing else; called
    [n] times, as the slot of [n] inbound packets after a refusal, it has
    sent [n] such frames after what was sent before, and the key, the status
    and the packet handlers are as they were. *)
Theorem sendKeyError_repeated (c : RemoteClientConnection) (n : nat) :
  let c' := Nat.iter n sendKeyError c in
  sentPackets (m_transport c')
  = sentPackets (m_transport c) ++ replicate n [0x6c; 0xfe; 0xff; 0xff]
  /\ packetReceived (m_transport c') = packetReceived (m_transport c)
  /\ m_sendHelper c' = m_sendHelper c
  /\ m_status c' = m_status c
  /\ m_statusReason c' = m_statusReason c.
Proof.
  cbv zeta. induction n as [| n IH].
  - cbn. rewrite app_nil_r. auto.
  - destruct IH as (Hsent & Hslots & Hkey & Hstatus & Hreason).
    change (Nat.iter (S n) sendKeyError c)
      with (sendKeyError (Nat.iter n sendKeyError c)).
    destruct (sendKeyError_fields (Nat.iter n sendKeyError c))
      as (-> & -> & -> & -> & ->).
    rewrite Hsent, errorPackage_bytes, <- app_assoc.
    split_and!; try assumption.
    f_equal. change ([[0x6c; 0xfe; 0xff; 0xff]])
      with (replicate 1 [0x6c; 0xfe; 0xff; 0xff]).
    rewrite <- replicate_add. f_equal. lia.
Qed.

(** *** users.getUsers *)

Section GetUsersMore.
Context `{ServerApi}.

Lemma runGetUsers_loop_None (self : option LocalUser)
    (inputs : list TLInputUser.t) (user : TLUser.t) (result : list TLUser.t) :
  runGetUsers_loop self inputs user result = None
  <-> exists input, input ∈ inputs /\ getUser input self = None.
Proof.
  revert user result.
  induction inputs as [| input rest IH]; intros user result;
    cbn [runGetUsers_loop].
  - split; [discriminate |]. intros (input & Hin & _).
    apply elem_of_nil in Hin. destruct Hin.
  - destruct (getUser input self) as [remoteUser |] eqn:Hget.
    + destruct (setupTLUser user remoteUser self) as [ok user'].
      rewrite IH. split.
      * intros (other & Hin & Hnone). exists other.
        split; [right; exact Hin | exact Hnone].
      * intros (other & Hin & Hnone).
        apply elem_of_cons in Hin as [-> | Hin]; [congruence |].
        exists other. split; assumption.
    + split; [| reflexivity]. intros _. exists input.
      split; [left | exact Hget].
Qed.

Lemma runGetUsers_loop_length (self : option LocalUser)
    (inputs : list TLInputUser.t) (user : TLUser.t)
    (result final : list TLUser.t) :
  runGetUsers_loop self inputs user result = Some final ->
  (length result <= length final <= length result + length inputs)%nat
  /\ ((forall u r, fst (setupTLUser u r self) = true) ->
      length final = (length result + length inputs)%nat).
Proof.
  revert user result.
  induction inputs as [| input rest IH]; intros user result;
    cbn [runGetUsers_loop].
  - intros [= <-]. cbn [length]. split; [lia |]. intros _. lia.
  - destruct (getUser input self) as [remoteUser |]; [| discriminate].
    pose proof (fun Hall : forall u r, fst (setupTLUser u r self) = true =>
                  Hall user remoteUser) as Hok.
    destruct (setupTLUser user remoteUser self) as [ok user'].
    intros Hloop. apply IH in Hloop as [Hbounds Hall]. cbn [length fst] in *.
    destruct ok.
    + rewrite length_app in *. cbn [length] in *. split; [lia |].
      intros Hevery. specialize (Hall Hevery). lia.
    + split; [lia |]. intros Hevery. specialize (Hok Hevery). discriminate Hok.
Qed.

(** [runGetUsers] answers all or nothing, and always with exactly one
    message.  If any requested user does not resolve, only the error 400
    [USER_ID_INVALID] is sent, however many users before it resolved.  If
    all resolve, one vector is sent, with at most one user per request, and
    with exactly one per request when [setupTLUser] never reports failure;
    an empty request is answered with an empty vector. *)
Theorem runGetUsers_all_or_nothing (op : GetUsersOperation) :
  let requested := getUsers_id (m_getUsers op) in
  let self := users_layer_getUser op in
  ((exists input, input ∈ requested /\ getUser input self = None) ->
   users_sent (runGetUsers op)
   = users_sent op ++ [SentUsersError (RpcError.mk 400 "USER_ID_INVALID")])
  /\ ((forall input, input ∈ requested -> is_Some (getUser input self)) ->
      exists result,
        users_sent (runGetUsers op) = users_sent op ++ [SentUsersReply result]
        /\ (length result <= length requested)%nat
        /\ ((forall u r, fst (setupTLUser u r self) = true) ->
            length result = length requested))
  /\ (requested = [] ->
      users_sent (runGetUsers op) = users_sent op ++ [SentUsersReply []]).
Proof.
  cbv zeta. unfold runGetUsers. split_and!.
  - intros Hmissing.
    apply (runGetUsers_loop_None _ _ TLUser.default []) in Hmissing.
    rewrite Hmissing. reflexivity.
  - intros Hall.
    destruct (runGetUsers_loop (users_layer_getUser op)
                (getUsers_id (m_getUsers op)) TLUser.default [])
      as [result |] eqn:Hloop.
    + exists result. split; [reflexivity |].
      apply runGetUsers_loop_length in Hloop as [Hbounds Hevery].
      cbn [length] in *. split; [lia | exact Hevery].
    + apply runGetUsers_loop_None in Hloop as (input & Hin & Hnone).
      destruct (Hall input Hin) as [user Huser]. congruence.
  - intros ->. reflexivity.
Qed.

(** A [users.getUsers] request for one user and a [users.getFullUser]
    request for the same user fail together.  When the user resolves, both
    carry the user that [setupTLUser] wrote; but [runGetUsers] leaves the
    user out of its vector when [setupTLUser] reports failure, while
    [runGetFullUser] does not look at that result and replies all the
    same. *)
Theorem runGetUsers_one_vs_runGetFullUser (input : TLInputUser.t)
    (self : option LocalUser) :
  let users := runGetUsers (mkUsersOperation (mkGetUsers [input]) self []) in
  let full := runGetFullUser (mkOperation (mkGetFullUser input) self []) in
  match getUser input self with
  | None =>
      users_sent users = [SentUsersError (RpcError.mk 400 "USER_ID_INVALID")]
      /\ sent full = [SentRpcError (RpcError.mk 400 "USER_ID_INVALID")]
  | Some remoteUser =>
      let written := setupTLUser TLUser.default remoteUser self in
      users_sent users
      = [SentUsersReply (if fst written then [snd written] else [])]
      /\ sent full
         = [SentRpcReply (TLUserFull.set_user (snd written)
                                              TLUserFull.default)]
  end.
Proof.
  cbv zeta. unfold runGetUsers, runGetFullUser.
  cbn [m_getUsers getUsers_id users_layer_getUser m_getFullUser
       getFullUser_id layer_getUser runGetUsers_loop].
  destruct (getUser input self) as [remoteUser |]; [| split; reflexivity].
  cbn [TLUserFull.user TLUserFull.default].
  destruct (setupTLUser TLUser.default remoteUser self) as [ok written].
  destruct ok; split; reflexivity.
Qed.

End GetUsersMore.

End ServerMore.
